(** * Table component: filter, sort, pagination, sticky offsets, popover

    A shallow embedding of the data pipeline of [Table.tsx] (the
    [filteredData], [sortedData] and [pagedData] values, [getStickyLeft],
    [getDropdownFilterValue]) and of the handlers of [MultiSelectDropdown],
    together with the properties the specification states about them.

    Modelling conventions.
    - A JavaScript number is [NaN] or an integer that a double holds;
      sums, differences and [parseInt] round to the nearest double, ties
      to the even significand, as the code's arithmetic does.  Fractions
      are outside the model, and so are infinities: the exponent range is
      unbounded, so a result of magnitude [2^1024] or more stands for
      itself where the code has an infinity.
    - A JavaScript string is a Rocq [string]; case mapping and white space
      are the ASCII ones.
    - A row is a finite map from column keys to primitive values; a key
      that is absent reads as [undefined].
    - The host functions [Date.parse], the string-to-number conversion and
      [String.prototype.localeCompare] are parameters of the development;
      concrete instances are supplied for the examples.
    - [Array.prototype.sort] is the algorithm V8 runs on an array of fewer
      than 64 items, run detection followed by binary insertion; see
      [Array_sort] for what this covers.
    - A component declared in the body of another is mounted anew, in its
      initial state, whenever the outer one renders; the state of
      [MultiSelectDropdown] is modelled with that. *)

From Stdlib Require Import ZArith Lia Bool Ascii String List Permutation.
From stdpp Require Import base option list strings gmap pretty.

Local Open Scope string_scope.
Local Open Scope list_scope.
Local Open Scope Z_scope.

(** ** JavaScript values *)

Inductive number : Type :=
| NaN
| Num (z : Z).

Inductive JSValue : Type :=
| VUndefined
| VNull
| VBool (b : bool)
| VNumber (n : number)
| VString (s : string).

#[global] Instance number_eq_dec : EqDecision number.
Proof. solve_decision. Defined.

#[global] Instance JSValue_eq_dec : EqDecision JSValue.
Proof. solve_decision. Defined.

(** [ToBoolean]. *)
Definition truthy (v : JSValue) : bool :=
  match v with
  | VUndefined | VNull => false
  | VBool b => b
  | VNumber NaN => false
  | VNumber (Num z) => negb (z =? 0)
  | VString s => negb (String.eqb s "")
  end.

(** [v == null]: true of [null] and [undefined] only. *)
Definition isNullish (v : JSValue) : bool :=
  match v with
  | VUndefined | VNull => true
  | _ => false
  end.

Definition NumberToString (n : number) : string :=
  match n with
  | NaN => "NaN"
  | Num z => pretty z
  end.

(** [String(v)]. *)
Definition String_ (v : JSValue) : string :=
  match v with
  | VUndefined => "undefined"
  | VNull => "null"
  | VBool true => "true"
  | VBool false => "false"
  | VNumber n => NumberToString n
  | VString s => s
  end.

(** The Number value for an integer: the integer itself up to magnitude
    [2^53]; beyond, the nearest integer with a significand of 53 bits, a
    tie going to the even significand. *)
Definition roundDouble (z : Z) : Z :=
  if Z.abs z <=? 2 ^ 53 then z
  else
    let e := Z.log2 (Z.abs z) - 52 in
    let q := Z.abs z / 2 ^ e in
    let r := Z.abs z mod 2 ^ e in
    let half := 2 ^ (e - 1) in
    let q' :=
      if r <? half then q
      else if half <? r then q + 1
      else if Z.even q then q else q + 1 in
    Z.sgn z * (q' * 2 ^ e).

(** Arithmetic and comparison on numbers; every comparison with [NaN] is
    false and every sum or difference with [NaN] is [NaN]. *)
Definition num_add (a b : number) : number :=
  match a, b with
  | Num x, Num y => Num (roundDouble (x + y))
  | _, _ => NaN
  end.

Definition num_sub (a b : number) : number :=
  match a, b with
  | Num x, Num y => Num (roundDouble (x - y))
  | _, _ => NaN
  end.

Definition num_lt (a b : number) : bool :=
  match a, b with
  | Num x, Num y => x <? y
  | _, _ => false
  end.

Definition num_le (a b : number) : bool :=
  match a, b with
  | Num x, Num y => x <=? y
  | _, _ => false
  end.

Definition num_gt (a b : number) : bool := num_lt b a.
Definition num_ge (a b : number) : bool := num_le b a.

(** [a === b] on numbers. *)
Definition num_eq (a b : number) : bool :=
  match a, b with
  | Num x, Num y => x =? y
  | _, _ => false
  end.

(** ** Strings *)

Definition toLowerChar (c : ascii) : ascii :=
  let n := nat_of_ascii c in
  if (65 <=? n)%nat && (n <=? 90)%nat then ascii_of_nat (n + 32) else c.

Fixpoint toLowerCase (s : string) : string :=
  match s with
  | EmptyString => EmptyString
  | String c s' => String (toLowerChar c) (toLowerCase s')
  end.

(** [s.includes(t)]: [t] occurs in [s] as a contiguous substring. *)
Fixpoint includes (s t : string) : bool :=
  String.prefix t s ||
  match s with
  | EmptyString => false
  | String _ s' => includes s' t
  end.

Definition isWhiteSpace (c : ascii) : bool :=
  let n := nat_of_ascii c in
  ((9 <=? n)%nat && (n <=? 13)%nat) || (n =? 32)%nat.

Fixpoint trimStart (s : string) : string :=
  match s with
  | EmptyString => EmptyString
  | String c s' => if isWhiteSpace c then trimStart s' else s
  end.

Fixpoint trimEnd (s : string) : string :=
  match s with
  | EmptyString => EmptyString
  | String c s' =>
      let t := trimEnd s' in
      if isWhiteSpace c && String.eqb t "" then EmptyString else String c t
  end.

Definition trim (s : string) : string := trimEnd (trimStart s).

Fixpoint endsWith (s suffix : string) : bool :=
  String.eqb s suffix ||
  match s with
  | EmptyString => false
  | String _ s' => endsWith s' suffix
  end.

(** [parseInt(s)] with no radix: leading white space, an optional sign, an
    optional [0x] prefix, then the longest run of digits; [NaN] when the run
    is empty, and otherwise the Number value for the integer the digits
    denote.  (Past twenty significant decimal digits the language lets an
    implementation read the later digits as zeros; the model reads them
    all.) *)
Definition digitValue (c : ascii) : option Z :=
  let n := Z.of_nat (nat_of_ascii c) in
  if (48 <=? n) && (n <=? 57) then Some (n - 48)
  else if (97 <=? n) && (n <=? 122) then Some (n - 87)
  else if (65 <=? n) && (n <=? 90) then Some (n - 55)
  else None.

Fixpoint parseDigits (radix : Z) (s : string) (acc : option Z) : option Z :=
  match s with
  | EmptyString => acc
  | String c s' =>
      match digitValue c with
      | Some d =>
          if d <? radix
          then parseDigits radix s' (Some (radix * default 0 acc + d))
          else acc
      | None => acc
      end
  end.

Definition parseInt (str : string) : number :=
  let s := trimStart str in
  let '(sign, s) :=
    match s with
    | String "-" s' => (-1, s')
    | String "+" s' => (1, s')
    | _ => (1, s)
    end in
  let '(radix, s) :=
    match s with
    | String "0" (String "x" s') => (16, s')
    | String "0" (String "X" s') => (16, s')
    | _ => (10, s)
    end in
  match parseDigits radix s None with
  | None => NaN
  | Some m => Num (roundDouble (sign * m))
  end.

(** ** Host functions

    [Date_parse s] is the time value of [new Date(s)] for a string [s]
    ([NaN] for an invalid date); [StringToNumber s] is [Number(s)];
    [localeCompare a b] is [a.localeCompare(b)]. *)

Class Host : Type := {
  Date_parse : string -> number;
  StringToNumber : string -> number;
  localeCompare : string -> string -> Z
}.

(** [Number(v)]. *)
Definition Number_ `{Host} (v : JSValue) : number :=
  match v with
  | VUndefined => NaN
  | VNull => Num 0
  | VBool b => Num (if b then 1 else 0)
  | VNumber n => n
  | VString s => StringToNumber s
  end.

Definition TimeClip (t : number) : number :=
  match t with
  | NaN => NaN
  | Num z => if 8640000000000000 <? Z.abs z then NaN else Num z
  end.

(** [new Date(v)], represented by its time value. *)
Definition NewDate `{Host} (v : JSValue) : number :=
  match v with
  | VString s => Date_parse s
  | _ => TimeClip (Number_ v)
  end.

(** ** Columns, rows and view state *)

Inductive ColumnType : Type := TString | TDate | TInteger | THtml.
Inductive FilterType : Type := FSearch | FDropdown | FDate | FInteger.
Inductive Wrap : Type := WNormal | WNowrap | WBreakWord.

#[global] Instance ColumnType_eq_dec : EqDecision ColumnType.
Proof. solve_decision. Defined.

#[global] Instance FilterType_eq_dec : EqDecision FilterType.
Proof. solve_decision. Defined.

(** [TableColumn<T>] without its [render] callback. *)
Record TableColumn : Type := {
  key : string;
  header : string;
  width : option string;
  wrap : option Wrap;
  filterable : option bool;
  type : option ColumnType;
  renderHTML : option bool;
  sticky : option bool;
  filterType : option FilterType;
  filterOptions : option (list string)
}.

Abbreviation Row := (gmap string JSValue).

(** [row[key]]. *)
Definition get (row : Row) (k : string) : JSValue :=
  default VUndefined (row !! k).

(** The [value] of a filter entry: [string | string[]], or [undefined]
    when a handler spread an entry that had none. *)
Inductive FilterValue : Type :=
| FVUndefined
| FVString (s : string)
| FVArray (l : list string).

Record FilterEntry : Type := {
  op : string;
  value : FilterValue;
  value2 : option string
}.

Abbreviation FilterState := (gmap string FilterEntry).

Definition fv_truthy (v : FilterValue) : bool :=
  match v with
  | FVUndefined => false
  | FVString s => negb (String.eqb s "")
  | FVArray _ => true
  end.

Definition fv_isString (v : FilterValue) : bool :=
  match v with
  | FVString _ => true
  | _ => false
  end.

(** [filter.value as string]. *)
Definition fv_asString (v : FilterValue) : string :=
  match v with
  | FVString s => s
  | _ => ""
  end.

(** [Number(filter.value)]; an array converts through its [join(",")]. *)
Definition fv_Number `{Host} (v : FilterValue) : number :=
  match v with
  | FVUndefined => NaN
  | FVString s => StringToNumber s
  | FVArray l => StringToNumber (String.concat "," l)
  end.

(** [value2] is truthy and a string. *)
Definition value2_set (v2 : option string) : bool :=
  match v2 with
  | Some s => negb (String.eqb s "")
  | None => false
  end.

Definition Array_includes (l : list string) (x : string) : bool :=
  existsb (String.eqb x) l.

(** ** getDropdownFilterValue *)

Definition getDropdownFilterValue (val : FilterValue) : list string :=
  if negb (fv_truthy val) then []
  else match val with
       | FVArray l => l
       | FVString s => if negb (String.eqb s "") then [s] else []
       | FVUndefined => []
       end.

(** ** filteredData *)

(** The global search step. [visibleCols] is [Array.from(visibleCols)]. *)
Definition globalSearch (search : string) (visibleCols : list string)
    (filtered : list Row) : list Row :=
  if negb (String.eqb (trim search) "") then
    List.filter (fun row =>
      existsb (fun k =>
        includes (toLowerCase (String_ (get row k))) (toLowerCase search))
        visibleCols) filtered
  else filtered.

(** [rowDate]: [null] for a falsy field, a [Date] otherwise. *)
Definition rowDate `{Host} (col : TableColumn) (row : Row) : option number :=
  if truthy (get row (key col)) then Some (NewDate (get row (key col)))
  else None.

(** The body of [columns.forEach] in [filteredData]. *)
Definition columnFilter `{Host} (filters : FilterState) (filtered : list Row)
    (col : TableColumn) : list Row :=
  match filters !! key col with
  | None => filtered
  | Some filter =>
    if negb (fv_truthy (value filter)) then filtered
    else if bool_decide (type col = Some TDate) then
      if String.eqb (op filter) "range" && fv_isString (value filter)
         && fv_truthy (value filter) && value2_set (value2 filter)
      then
        List.filter (fun row =>
          match rowDate col row with
          | None => false
          | Some d =>
              num_ge d (NewDate (VString (fv_asString (value filter))))
              && num_le d (NewDate (VString (default "" (value2 filter))))
          end) filtered
      else if String.eqb (op filter) "before" && fv_isString (value filter)
              && fv_truthy (value filter)
      then
        List.filter (fun row =>
          match rowDate col row with
          | None => false
          | Some d => num_lt d (NewDate (VString (fv_asString (value filter))))
          end) filtered
      else if String.eqb (op filter) "after" && fv_isString (value filter)
              && fv_truthy (value filter)
      then
        List.filter (fun row =>
          match rowDate col row with
          | None => false
          | Some d => num_gt d (NewDate (VString (fv_asString (value filter))))
          end) filtered
      else filtered
    else if bool_decide (type col = Some TInteger) then
      let rowVal := fun row : Row => Number_ (get row (key col)) in
      let filterVal := fv_Number (value filter) in
      if String.eqb (op filter) "=" && fv_truthy (value filter) then
        List.filter (fun row => num_eq (rowVal row) filterVal) filtered
      else if String.eqb (op filter) "<" && fv_truthy (value filter) then
        List.filter (fun row => num_lt (rowVal row) filterVal) filtered
      else if String.eqb (op filter) ">" && fv_truthy (value filter) then
        List.filter (fun row => num_gt (rowVal row) filterVal) filtered
      else filtered
    else if bool_decide (filterType col = Some FDropdown) then
      let selected := getDropdownFilterValue (value filter) in
      if (0 <? Z.of_nat (length selected)) then
        List.filter (fun row =>
          Array_includes selected (String_ (get row (key col)))) filtered
      else filtered
    else
      match value filter with
      | FVString s =>
          List.filter (fun row =>
            includes (toLowerCase (String_ (get row (key col))))
                     (toLowerCase s)) filtered
      | _ => filtered
      end
  end.

Definition filteredData `{Host} (data : list Row) (search : string)
    (filters : FilterState) (visibleCols : list string)
    (columns : list TableColumn) : list Row :=
  fold_left (columnFilter filters) columns
            (globalSearch search visibleCols data).

(** Whether one row passes the clause of one column: the clause run on the
    row alone keeps it. *)
Definition columnPasses `{Host} (filters : FilterState) (col : TableColumn)
    (row : Row) : bool :=
  match columnFilter filters [row] col with
  | [] => false
  | _ :: _ => true
  end.

(** The filter kind the filter row renders for a column. *)
Definition filterTypeOf (col : TableColumn) : FilterType :=
  match filterType col with
  | Some ft => ft
  | None =>
      match type col with
      | Some TDate => FDate
      | Some TInteger => FInteger
      | _ => FSearch
      end
  end.

(** ** sortedData *)

Inductive Direction : Type := asc | desc.

Record Sort : Type := {
  sort_key : string;
  direction : Direction
}.

(** The comparator passed to [sort]. *)
Definition compareRows `{Host} (sort : Sort) (a b : Row) : number :=
  let aValue := get a (sort_key sort) in
  let bValue := get b (sort_key sort) in
  if isNullish aValue then Num 1
  else if isNullish bValue then Num (-1)
  else
    match aValue, bValue with
    | VNumber x, VNumber y =>
        match direction sort with
        | asc => num_sub x y
        | desc => num_sub y x
        end
    | _, _ =>
        match direction sort with
        | asc => Num (localeCompare (String_ aValue) (String_ bValue))
        | desc => Num (localeCompare (String_ bValue) (String_ aValue))
        end
    end.

(** [Array.prototype.sort(comparefn)].  The language requires the sort to
    be stable and fixes the result for a comparator that is consistent on
    the items; the algorithm is the engine's.  The model is the one V8 runs
    on an array of fewer than 64 items: [CountAndMakeRun] finds the run the
    array starts with, reversing it when it strictly descends, and
    [BinaryInsertionSort] inserts each later item at the place a binary
    search among the items already placed finds.  Every test of a
    comparator result is a test of [order < 0], and the comparator is called
    with the later item first.  On a longer array V8 builds such runs of 32
    to 64 items and merges them, testing comparator results in the same
    way; when "less than" under the comparator is a strict weak order on
    the items ([orders]) the result is the same, the one stable sorted
    arrangement ([Array_sort_ordered], [Array_sort_keeps]); for another
    comparator an array of 64 items or more is outside the model.  A
    comparator result of [NaN] counts as [0]. *)
Definition SortCompare {A : Type} (comparefn : A -> A -> number) (x y : A) : Z :=
  match comparefn x y with
  | NaN => 0
  | Num v => v
  end.

(** [order < 0] for [order = comparefn(x, y)]. *)
Definition lessThan {A : Type} (comparefn : A -> A -> number) (x y : A) : bool :=
  SortCompare comparefn x y <? 0.

(** [CountAndMakeRun].  [extendRun] walks on from [previousElement] while
    the order of each element against the one before it keeps the direction
    of the run, and returns the elements it passed and the rest of the
    array. *)
Fixpoint extendRun {A : Type} (comparefn : A -> A -> number)
    (isDescending : bool) (previousElement : A) (a : list A)
    : list A * list A :=
  match a with
  | [] => ([], [])
  | currentElement :: a' =>
      let order := SortCompare comparefn currentElement previousElement in
      if (if isDescending then 0 <=? order else order <? 0)
      then ([], a)
      else
        let '(run, rest) := extendRun comparefn isDescending currentElement a' in
        (currentElement :: run, rest)
  end.

(** The run, reversed when it descends, and the rest of the array; an
    array of fewer than two items is its own run. *)
Definition CountAndMakeRun {A : Type} (comparefn : A -> A -> number)
    (workArray : list A) : list A * list A :=
  match workArray with
  | elementHigh :: elementLow :: a' =>
      let order := SortCompare comparefn elementLow elementHigh in
      let isDescending := order <? 0 in
      let '(run, rest) := extendRun comparefn isDescending elementLow a' in
      let run := elementHigh :: elementLow :: run in
      (if isDescending then rev run else run, rest)
  | _ => (workArray, [])
  end.

(** The binary search of [BinaryInsertionSort]: the place of [pivot] among
    the items of [workArray] between [left] and [right].  [fuel] bounds the
    number of steps; [right - left] is enough ([binarySearch_fuel]). *)
Fixpoint binarySearch {A : Type} (comparefn : A -> A -> number) (pivot : A)
    (workArray : list A) (fuel left right : nat) : nat :=
  match fuel with
  | O => left
  | S fuel' =>
      if (left <? right)%nat then
        let mid := (left + (right - left) / 2)%nat in
        match workArray !! mid with
        | Some midElement =>
            let order := SortCompare comparefn pivot midElement in
            if order <? 0
            then binarySearch comparefn pivot workArray fuel' left mid
            else binarySearch comparefn pivot workArray fuel' (mid + 1)%nat right
        | None => left
        end
      else left
  end.

(** [sorted] holds the items placed so far; the pivot goes in at the place
    found and the items from there on move up by one. *)
Definition insertPivot {A : Type} (comparefn : A -> A -> number)
    (sorted : list A) (pivot : A) : list A :=
  let left :=
    binarySearch comparefn pivot sorted (length sorted) 0 (length sorted) in
  firstn left sorted ++ pivot :: skipn left sorted.

Definition BinaryInsertionSort {A : Type} (comparefn : A -> A -> number)
    (run rest : list A) : list A :=
  fold_left (insertPivot comparefn) rest run.

Definition Array_sort {A : Type} (comparefn : A -> A -> number)
    (a : list A) : list A :=
  let '(run, rest) := CountAndMakeRun comparefn a in
  BinaryInsertionSort comparefn run rest.

(** "Less than" under the comparator is a strict weak order on the items
    of [l]: it is asymmetric, and an item less than another is less than
    any third item or has the third item below the other. *)
Definition orders {A : Type} (comparefn : A -> A -> number) (l : list A) : Prop :=
  (forall x y, In x l -> In y l ->
     lessThan comparefn x y = true -> lessThan comparefn y x = false) /\
  (forall x y z, In x l -> In y l -> In z l ->
     lessThan comparefn x y = true ->
     lessThan comparefn x z = true \/ lessThan comparefn z y = true).

Definition ordersb {A : Type} (comparefn : A -> A -> number) (l : list A) : bool :=
  forallb (fun x => forallb (fun y =>
    implb (lessThan comparefn x y)
      (negb (lessThan comparefn y x) &&
       forallb (fun z => lessThan comparefn x z || lessThan comparefn z y) l)) l) l.

(** Each item of [run] stands in [R] to the one before it, [previous]
    coming before the first. *)
Fixpoint chained {A : Type} (R : A -> A -> Prop) (previous : A) (run : list A)
    : Prop :=
  match run with
  | [] => True
  | current :: run' => R previous current /\ chained R current run'
  end.

(** [before x y l]: some occurrence of [x] in [l] comes before some
    occurrence of [y]. *)
Fixpoint before {A : Type} (x y : A) (l : list A) : Prop :=
  match l with
  | [] => False
  | a :: l' => (a = x /\ In y l') \/ before x y l'
  end.

(** A comparator on [B] used on items of [A] through a projection. *)
Definition through {A B : Type} (f : A -> B) (comparefn : B -> B -> number)
    : A -> A -> number :=
  fun p q => comparefn (f p) (f q).

(** The items of a list with their positions. *)
Fixpoint indexedFrom {A : Type} (i : nat) (l : list A) : list (nat * A) :=
  match l with
  | [] => []
  | x :: l' => (i, x) :: indexedFrom (S i) l'
  end.

Definition sortedData `{Host} (sort : option Sort) (filteredData : list Row)
    : list Row :=
  match sort with
  | None => filteredData
  | Some s => Array_sort (compareRows s) filteredData
  end.

(** ** pagedData *)

(** [Array.prototype.slice(start, end)]: a negative index counts from the
    end of the array, and both indices are clamped to the array. *)
Definition relativeIndex (len i : Z) : Z :=
  if i <? 0 then Z.max (len + i) 0 else Z.min i len.

Definition Array_slice {A : Type} (a : list A) (start end_ : Z) : list A :=
  let len := Z.of_nat (length a) in
  let k := relativeIndex len start in
  let final := relativeIndex len end_ in
  firstn (Z.to_nat (Z.max (final - k) 0)) (skipn (Z.to_nat k) a).

(** [Math.ceil(a / b)] for integers [a] and [b > 0]. *)
Definition ceilDiv (a b : Z) : Z := - ((- a) / b).

Definition pageCount {A : Type} (sortedData : list A) (rowsPerPage : Z) : Z :=
  Z.max 1 (ceilDiv (Z.of_nat (length sortedData)) rowsPerPage).

Definition pagedData {A : Type} (enablePagination : bool)
    (sortedData : list A) (page rowsPerPage : Z) : list A :=
  if enablePagination
  then Array_slice sortedData ((page - 1) * rowsPerPage) (page * rowsPerPage)
  else sortedData.

(** ** getStickyLeft *)

(** The width one column adds to the offset: the body of the loop. *)
Definition resolvedWidth (col : TableColumn) : number :=
  match width col with
  | Some w =>
      if negb (String.eqb w "") && endsWith w "px" then parseInt w
      else if negb (String.eqb w "") && endsWith w "%" then Num 120
      else Num 120
  | None => Num 120
  end.

(** The loop of [getStickyLeft] from [i], [n] iterations to go; [None] is
    the [TypeError] of reading [width] off [cols[i]] past the array. *)
Fixpoint getStickyLeft_from (cols : list TableColumn) (i n : nat)
    (left : number) : option number :=
  match n with
  | O => Some left
  | S n' =>
      match cols !! i with
      | None => None
      | Some col =>
          getStickyLeft_from cols (S i) n' (num_add left (resolvedWidth col))
      end
  end.

Definition getStickyLeft (cols : list TableColumn) (idx : nat) : option number :=
  getStickyLeft_from cols 0 idx (Num 0).

(** The sum of the resolved widths of a list of columns, as the
    specification words the offset. *)
Definition sumWidths (cols : list TableColumn) : number :=
  fold_left num_add (map resolvedWidth cols) (Num 0).

(** ** MultiSelectDropdown *)

Module MultiSelectDropdown.

(** A DOM node, and an element as its [contains] test. *)
Definition Node : Type := nat.
Definition Element : Type := Node -> bool.

Record Refs : Type := {
  btnRef : option Element;
  menuRef : option Element
}.

(** The [open] state of the component and the [value] its parent holds
    for it. *)
Record Popover : Type := {
  open : bool;
  selected : list string
}.

Definition setOpen (b : bool) (st : Popover) : Popover :=
  {| open := b; selected := selected st |}.

(** [onChange] is the parent's [setFilters]: [Table] stores the new
    [value] and renders again.  [MultiSelectDropdown] is declared in the
    body of [Table], so every render of [Table] makes a new component of
    it, and the dropdown of the filter row is mounted anew, its state
    [open] at the initial [useState(false)]. *)
Definition onChange (v : list string) (st : Popover) : Popover :=
  {| open := false; selected := v |}.

Definition allSelected (options : list string) (st : Popover) : bool :=
  (length (selected st) =? length options)%nat && (0 <? length options)%nat.

Definition handleSelect (option : string) (st : Popover) : Popover :=
  if Array_includes (selected st) option
  then onChange (List.filter (fun v => negb (String.eqb v option)) (selected st)) st
  else onChange (selected st ++ [option]) st.

Definition handleSelectAll (options : list string) (st : Popover) : Popover :=
  if allSelected options st then onChange [] st else onChange options st.

Definition refContains (r : option Element) (target : Node) : bool :=
  match r with
  | Some el => el target
  | None => false
  end.

(** The [mousedown] listener. *)
Definition handle (refs : Refs) (target : Node) (st : Popover) : Popover :=
  if refContains (btnRef refs) target || refContains (menuRef refs) target
  then st
  else setOpen false st.

(** The [keydown] listener. *)
Definition handleKey (k : string) (st : Popover) : Popover :=
  if String.eqb k "Escape" then setOpen false st else st.

Inductive Event : Type :=
| MouseDown (target : Node)
| KeyDown (k : string)
| TriggerClick
| ToggleOption (option : string)
| ToggleSelectAll.

(** One event; the two document listeners are registered only while the
    popover is open. *)
Definition dispatch (refs : Refs) (options : list string) (st : Popover)
    (e : Event) : Popover :=
  match e with
  | MouseDown target => if open st then handle refs target st else st
  | KeyDown k => if open st then handleKey k st else st
  | TriggerClick => setOpen (negb (open st)) st
  | ToggleOption o => handleSelect o st
  | ToggleSelectAll => handleSelectAll options st
  end.

End MultiSelectDropdown.

(** ** A host for the examples

    Dates are [YYYY-MM-DD] strings, numbers are decimal integer literals and
    strings compare by code unit. *)

Definition isDigit (c : ascii) : bool :=
  let n := nat_of_ascii c in (48 <=? n)%nat && (n <=? 57)%nat.

Fixpoint allDigits (s : string) : bool :=
  match s with
  | EmptyString => true
  | String c s' => isDigit c && allDigits s'
  end.

Definition decimalValue (s : string) : option Z :=
  if negb (String.eqb s "") && allDigits s then parseDigits 10 s None
  else None.

(** Days from 1970-01-01 to the given day of the proleptic Gregorian
    calendar. *)
Definition daysFromCivil (y m d : Z) : Z :=
  let y' := if m <=? 2 then y - 1 else y in
  let era := y' / 400 in
  let yoe := y' - era * 400 in
  let doy := (153 * (if 2 <? m then m - 3 else m + 9) + 2) / 5 + d - 1 in
  let doe := yoe * 365 + yoe / 4 - yoe / 100 + doy in
  era * 146097 + doe - 719468.

Definition isoDateParse (s : string) : number :=
  if (String.length s =? 10)%nat
     && String.eqb (substring 4 1 s) "-" && String.eqb (substring 7 1 s) "-"
  then
    match decimalValue (substring 0 4 s), decimalValue (substring 5 2 s),
          decimalValue (substring 8 2 s) with
    | Some y, Some m, Some d =>
        if (1 <=? m) && (m <=? 12) && (1 <=? d) && (d <=? 31)
        then Num (daysFromCivil y m d * 86400000)
        else NaN
    | _, _, _ => NaN
    end
  else NaN.

Definition integerLiteral (s : string) : number :=
  let t := trim s in
  match t with
  | EmptyString => Num 0
  | String "-" t' =>
      match decimalValue t' with Some v => Num (- v) | None => NaN end
  | String "+" t' =>
      match decimalValue t' with Some v => Num v | None => NaN end
  | _ => match decimalValue t with Some v => Num v | None => NaN end
  end.

Definition codeUnitCompare (a b : string) : Z :=
  match String.compare a b with
  | Lt => -1
  | Eq => 0
  | Gt => 1
  end.

Definition exampleHost : Host := {|
  Date_parse := isoDateParse;
  StringToNumber := integerLiteral;
  localeCompare := codeUnitCompare
|}.

(** Rows and columns of the examples. *)
Definition mkRow (fields : list (string * JSValue)) : Row := list_to_map fields.

Definition column (k : string) (ty : option ColumnType)
    (ft : option FilterType) (w : option string) : TableColumn :=
  {| key := k; header := k; width := w; wrap := None; filterable := None;
     type := ty; renderHTML := None; sticky := None; filterType := ft;
     filterOptions := None |}.

Definition entry (o : string) (v : FilterValue) (v2 : option string)
    : FilterEntry :=
  {| op := o; value := v; value2 := v2 |}.

Definition people : list Row :=
  [mkRow [("name", VString "Alice"); ("age", VNumber (Num 35));
          ("joined", VString "2020-06-01")];
   mkRow [("name", VString "Bob"); ("age", VNumber (Num 40));
          ("joined", VString "2018-09-15")]].

Definition ranked : list Row :=
  [mkRow [("name", VString "Eve"); ("age", VNull)];
   mkRow [("name", VString "Bob"); ("age", VNumber (Num 40))];
   mkRow [("name", VString "Alice"); ("age", VNumber (Num 35))];
   mkRow [("name", VString "Dan")];
   mkRow [("name", VString "Carol"); ("age", VNumber (Num 40))]].

(** Rows whose field [k] is a number in some and a string in one. *)
Definition mixed : list Row :=
  [mkRow [("id", VNumber (Num 0)); ("k", VNumber (Num 5))];
   mkRow [("id", VNumber (Num 1)); ("k", VNumber (Num 6))];
   mkRow [("id", VNumber (Num 2)); ("k", VNumber (Num 10))];
   mkRow [("id", VNumber (Num 3)); ("k", VString "1x")];
   mkRow [("id", VNumber (Num 4)); ("k", VNumber (Num 9))];
   mkRow [("id", VNumber (Num 5)); ("k", VNumber (Num 7))];
   mkRow [("id", VNumber (Num 6)); ("k", VNumber (Num 9))]].

Definition sheet : list TableColumn :=
  [column "name" (Some TString) None None;
   column "age" (Some TInteger) None None;
   column "joined" (Some TDate) None None].

(** ** The column chooser

    A [Set] of keys is the list of its members in insertion order. *)

Definition Set_has (s : list string) (k : string) : bool := Array_includes s k.

Definition Set_add (k : string) (s : list string) : list string :=
  if Set_has s k then s else s ++ [k].

Definition Set_delete (k : string) (s : list string) : list string :=
  List.filter (fun x => negb (String.eqb x k)) s.

(** [new Set(array)]. *)
Definition Set_from (a : list string) : list string :=
  fold_left (fun s k => Set_add k s) a [].

(** The initial [visibleCols]. *)
Definition initialVisibleCols (columns : list TableColumn)
    (defaultHiddenColumns : list string) : list string :=
  if (length defaultHiddenColumns =? 0)%nat then Set_from (map key columns)
  else Set_from
         (List.filter (fun k => negb (Array_includes defaultHiddenColumns k))
                      (map key columns)).

Definition allSelected (columns : list TableColumn) (visibleCols : list string)
    : bool :=
  (length visibleCols =? length columns)%nat.

Definition handleColToggle (k : string) (prev : list string) : list string :=
  if Set_has prev k then Set_delete k prev else Set_add k prev.

Definition handleSelectAll (columns : list TableColumn)
    (visibleCols : list string) : list string :=
  if allSelected columns visibleCols then [] else Set_from (map key columns).

(** The columns the header, the filter row and the body render. *)
Definition displayedColumns (columns : list TableColumn)
    (visibleCols : list string) : list TableColumn :=
  List.filter (fun col => Set_has visibleCols (key col)) columns.

(** The check boxes of the chooser: one for each declared column, and
    "All". *)
Inductive ChooserEvent : Type :=
| ToggleColumn (col : TableColumn)
| ToggleAll.

Definition chooserStep (columns : list TableColumn) (visibleCols : list string)
    (e : ChooserEvent) : list string :=
  match e with
  | ToggleColumn col => handleColToggle (key col) visibleCols
  | ToggleAll => handleSelectAll columns visibleCols
  end.

(** ** The header click *)

Definition headerClick (k : string) (prev : option Sort) : option Sort :=
  match prev with
  | None => Some {| sort_key := k; direction := asc |}
  | Some p =>
      if negb (String.eqb (sort_key p) k)
      then Some {| sort_key := k; direction := asc |}
      else match direction p with
           | asc => Some {| sort_key := k; direction := desc |}
           | desc => None
           end
  end.

(** ** The pagination buttons *)

Definition previousPage (p : Z) : Z := Z.max 1 (p - 1).

Definition nextPage (pageCount p : Z) : Z := Z.min pageCount (p + 1).

Inductive PageButton : Type := Previous | Next.

Definition pressPageButton (pageCount : Z) (p : Z) (b : PageButton) : Z :=
  match b with
  | Previous => previousPage p
  | Next => nextPage pageCount p
  end.

(** ** columnDropdownOptions *)

(** The comparison of [sort()] without a comparator, on strings. *)
Definition defaultCompare (a b : string) : number := Num (codeUnitCompare a b).

(** The unique non-empty stringified values of one column, sorted. *)
Definition uniqueValues (data : list Row) (k : string) : list string :=
  Array_sort defaultCompare
    (List.filter (fun v => negb (String.eqb v ""))
       (Set_from (map (fun row => String_ (get row k)) data))).

Definition columnDropdownOptions (columns : list TableColumn)
    (data : list Row) : gmap string (list string) :=
  fold_left
    (fun options col =>
       if bool_decide (filterType col = Some FDropdown)
          && negb (bool_decide (is_Some (filterOptions col)))
       then <[key col := uniqueValues data (key col)]> options
       else options)
    columns ∅.

(** ** The filter row *)

Definition dropdownOptions (col : TableColumn)
    (options : gmap string (list string)) : list string :=
  if bool_decide (filterType col = Some FDropdown) then
    match filterOptions col with
    | Some l => l
    | None => default [] (options !! key col)
    end
  else [].

Inductive FilterControl : Type :=
| NoControl
| DropdownControl (options value : list string)
| DateControl
| IntegerControl
| TextControl.

(** The control the filter row renders in the cell of a column. *)
Definition filterControl (col : TableColumn)
    (options : gmap string (list string)) (filters : FilterState)
    : FilterControl :=
  if negb (bool_decide (filterable col = Some false)) then
    if bool_decide (filterTypeOf col = FDropdown)
       && (0 <? length (dropdownOptions col options))%nat
    then DropdownControl (dropdownOptions col options)
           (getDropdownFilterValue
              (from_option value FVUndefined (filters !! key col)))
    else if bool_decide (filterTypeOf col = FDate) then DateControl
    else if bool_decide (filterTypeOf col = FInteger) then IntegerControl
    else TextControl
  else NoControl.

(** [filters[key]?.op || fallback]. *)
Definition currentOp (filters : FilterState) (k : string) (fallback : string)
    : string :=
  match filters !! k with
  | Some f => if String.eqb (op f) "" then fallback else op f
  | None => fallback
  end.

(** The [setFilters] updaters of the controls; [prev] is the state the
    updater receives, [filters] the state of the render that made the
    handler. *)
Definition onDropdownChange (k : string) (selected : list string)
    (prev : FilterState) : FilterState :=
  <[k := {| op := "in"; value := FVArray selected; value2 := None |}]> prev.

Definition onDateOpChange (k : string) (newOp : string) (prev : FilterState)
    : FilterState :=
  <[k := {| op := newOp; value := FVString ""; value2 := Some "" |}]> prev.

Definition onDateValueChange (filters : FilterState) (k : string) (v : string)
    (prev : FilterState) : FilterState :=
  <[k := {| op := currentOp filters k "range"; value := FVString v;
            value2 := prev !! k ≫= value2 |}]> prev.

Definition onDateValue2Change (filters : FilterState) (k : string) (v : string)
    (prev : FilterState) : FilterState :=
  <[k := {| op := currentOp filters k "range";
            value := from_option value FVUndefined (prev !! k);
            value2 := Some v |}]> prev.


Definition onIntegerValueChange (filters : FilterState) (k : string)
    (v : string) (prev : FilterState) : FilterState :=
  <[k := {| op := currentOp filters k "="; value := FVString v;
            value2 := prev !! k ≫= value2 |}]> prev.

Definition onTextChange (k : string) (v : string) (prev : FilterState)
    : FilterState :=
  <[k := {| op := "contains"; value := FVString v; value2 := None |}]> prev.

(** * Properties *)

Example parseInt_120px : parseInt "120px" = Num 120.
Proof. reflexivity. Qed.

Example parseInt_neg : parseInt "-5px" = Num (-5).
Proof. reflexivity. Qed.

Example parseInt_px : parseInt "px" = NaN.
Proof. reflexivity. Qed.

Example parseInt_hex : parseInt " 0x1Fpx" = Num 31.
Proof. reflexivity. Qed.

Example String_number : String_ (VNumber (Num (-42))) = "-42".
Proof. reflexivity. Qed.

Example includes_ex : includes (toLowerCase "Alice Smith") "ce s" = true.
Proof. reflexivity. Qed.

Example trim_ex : trim "  a b  " = "a b".
Proof. reflexivity. Qed.

Example endsWith_ex : endsWith "20%" "%" = true /\ endsWith "20px" "%" = false.
Proof. split; reflexivity. Qed.

Example isoDateParse_epoch :
  isoDateParse "1970-01-01" = Num 0 /\
  isoDateParse "2020-06-01" = Num 1590969600000 /\
  isoDateParse "June 1" = NaN.
Proof. repeat split; vm_compute; reflexivity. Qed.

Example filteredData_age_gt_30 :
  let rows := [mkRow [("name", VString "Alice"); ("age", VNumber (Num 35))];
               mkRow [("name", VString "Jack"); ("age", VNumber (Num 28))];
               mkRow [("name", VString "Bob"); ("age", VNumber (Num 40))]] in
  filteredData (H := exampleHost) rows ""
    {[ "age" := entry ">" (FVString "30") None ]} ["name"; "age"]
    [column "name" (Some TString) None None;
     column "age" (Some TInteger) None None]
  = [mkRow [("name", VString "Alice"); ("age", VNumber (Num 35))];
     mkRow [("name", VString "Bob"); ("age", VNumber (Num 40))]].
Proof. vm_compute. reflexivity. Qed.

(** ** Strings: what [includes] decides *)

Lemma append_String (c : ascii) (a b : string) :
  String.append (String c a) b = String c (String.append a b).
Proof. reflexivity. Qed.

Lemma append_Empty (b : string) : String.append EmptyString b = b.
Proof. reflexivity. Qed.

Lemma prefix_spec (t s : string) :
  String.prefix t s = true <-> exists b, s = String.append t b.
Proof.
  revert t. induction s as [|c s IH]; intros [|d t]; simpl.
  - split; [exists EmptyString; reflexivity | reflexivity].
  - split; [discriminate | intros [b Hb]; discriminate].
  - split; [exists (String c s); reflexivity | reflexivity].
  - destruct (ascii_dec d c) as [->|Hne].
    + rewrite IH. split; intros [b Hb]; exists b;
        rewrite append_String in *; congruence.
    + split; [discriminate|].
      intros [b Hb]. rewrite append_String in Hb. congruence.
Qed.

Lemma includes_eq (s t : string) :
  includes s t
  = String.prefix t s
    || match s with
       | EmptyString => false
       | String _ s' => includes s' t
       end.
Proof. destruct s; reflexivity. Qed.

Lemma includes_spec (s t : string) :
  includes s t = true <->
  exists a b, s = String.append a (String.append t b).
Proof.
  induction s as [|c s IH]; rewrite includes_eq, orb_true_iff, prefix_spec.
  - split.
    + intros [[b Hb]|Hf]; [exists EmptyString, b; exact Hb | discriminate].
    + intros [[|x a] [b Hb]]; [left; exists b; exact Hb | discriminate].
  - rewrite IH. split.
    + intros [[b Hb]|[a [b Hb]]].
      * exists EmptyString, b. exact Hb.
      * exists (String c a), b. rewrite append_String. congruence.
    + intros [[|x a] [b Hb]].
      * left. exists b. exact Hb.
      * right. exists a, b. rewrite append_String in Hb. congruence.
Qed.

(** ** filteredData: the steps filter, and an absent entry does nothing *)

Section FilterEngine.
Context `{Host}.

Lemma columnFilter_none (filters : FilterState) (rows : list Row)
    (col : TableColumn) :
  filters !! key col = None -> columnFilter filters rows col = rows.
Proof. intros Hn. unfold columnFilter. rewrite Hn. reflexivity. Qed.

Lemma columnFilter_unset (filters : FilterState) (rows : list Row)
    (col : TableColumn) (filter : FilterEntry) :
  filters !! key col = Some filter -> fv_truthy (value filter) = false ->
  columnFilter filters rows col = rows.
Proof. intros Hs Hv. unfold columnFilter. rewrite Hs, Hv. reflexivity. Qed.

Lemma columnFilter_incl (filters : FilterState) (rows : list Row)
    (col : TableColumn) (row : Row) :
  In row (columnFilter filters rows col) -> In row rows.
Proof.
  unfold columnFilter.
  repeat (case_match; try tauto);
    intros Hin; apply List.filter_In in Hin; tauto.
Qed.

Lemma filteredData_no_filters (data : list Row) (search : string)
    (visibleCols : list string) (columns : list TableColumn) :
  filteredData data search ∅ visibleCols columns
  = globalSearch search visibleCols data.
Proof.
  unfold filteredData. generalize (globalSearch search visibleCols data).
  induction columns as [|col columns IH]; intros l; simpl; [reflexivity|].
  rewrite columnFilter_none by apply lookup_empty. apply IH.
Qed.

(** Every clause is a filter by a test on the row alone, and the result is
    the conjunction of the global search and the clauses. *)
Lemma columnFilter_filter (filters : FilterState) (rows : list Row)
    (col : TableColumn) :
  columnFilter filters rows col = List.filter (columnPasses filters col) rows.
Proof.
  assert (Hid : rows = List.filter (fun _ => true) rows).
  { induction rows as [|r rows IH]; simpl; [|rewrite <- IH]; reflexivity. }
  unfold columnPasses, columnFilter.
  repeat case_match;
    first [ exact Hid
          | apply List.filter_ext; intros row; cbn [List.filter];
            match goal with |- ?q = _ => destruct q end; reflexivity ].
Qed.

Lemma filteredData_conjunction (data : list Row) (search : string)
    (filters : FilterState) (visibleCols : list string)
    (columns : list TableColumn) (row : Row) :
  In row (filteredData data search filters visibleCols columns) <->
  In row (globalSearch search visibleCols data) /\
  List.Forall (fun col => columnPasses filters col row = true) columns.
Proof.
  unfold filteredData. generalize (globalSearch search visibleCols data).
  induction columns as [|col columns IH]; intros l; simpl.
  - split; [intros Hin; split; [exact Hin | constructor] | tauto].
  - rewrite IH, columnFilter_filter, List.filter_In. split.
    + intros [[Hin Hp] Hall]. split; [exact Hin|]. constructor; assumption.
    + intros [Hin Hall]. inversion Hall; subst. tauto.
Qed.

Lemma globalSearch_incl (search : string) (visibleCols : list string)
    (rows : list Row) (row : Row) :
  In row (globalSearch search visibleCols rows) -> In row rows.
Proof.
  unfold globalSearch. case_match; [|tauto].
  intros Hin. apply List.filter_In in Hin. tauto.
Qed.

Lemma filteredData_passes_clause (data : list Row) (search : string)
    (filters : FilterState) (visibleCols : list string)
    (columns : list TableColumn) (row : Row) (col : TableColumn) :
  In row (filteredData data search filters visibleCols columns) ->
  In col columns -> In row (columnFilter filters data col).
Proof.
  rewrite filteredData_conjunction, columnFilter_filter, List.filter_In.
  intros [Hin Hall] Hcol. split; [eapply globalSearch_incl; exact Hin|].
  rewrite List.Forall_forall in Hall. apply Hall. exact Hcol.
Qed.

End FilterEngine.

(** ** Filter kind resolution *)

(** Whatever the rows, the entry the dropdown stores removes nothing on a
    column of type [date] or [integer]. *)
Lemma columnFilter_typed_dropdown `{Host} (filters : FilterState)
    (rows : list Row) (col : TableColumn) (sel : list string) :
  type col = Some TDate \/ type col = Some TInteger ->
  filters !! key col = Some (entry "in" (FVArray sel) None) ->
  columnFilter filters rows col = rows.
Proof.
  intros Ht Hf. unfold columnFilter. rewrite Hf. simpl.
  destruct Ht as [-> | ->]; reflexivity.
Qed.

(** C1: a column with both a [type] and an explicit [filterType] is to be
    filtered by the kind [filterType] names.  [filteredData] tests [type]
    first: on a column of type [date] or [integer] with [filterType]
    [dropdown], for which the filter row renders the dropdown
    ([filterTypeOf]), a non-empty selection stored by that dropdown removes
    no row, while the same selection on a column without [type] keeps only
    the selected rows; and a column without [type] whose [filterType] is
    [date] is filtered by text containment of the lower bound, not by the
    date range. *)
Theorem filteredData_type_tested_before_filterType :
  let dateCol := column "joined" (Some TDate) (Some FDropdown) None in
  let intCol := column "age" (Some TInteger) (Some FDropdown) None in
  let plainCol := column "joined" None (Some FDropdown) None in
  let byJoined : FilterState :=
    {[ "joined" := entry "in" (FVArray ["2020-06-01"]) None ]} in
  let byAge : FilterState :=
    {[ "age" := entry "in" (FVArray ["35"]) None ]} in
  let inRange : FilterState :=
    {[ "joined" := entry "range" (FVString "2020-01-01") (Some "2021-01-01") ]} in
  let alice := mkRow [("name", VString "Alice"); ("age", VNumber (Num 35));
                      ("joined", VString "2020-06-01")] in
  filterTypeOf dateCol = FDropdown /\
  filterTypeOf intCol = FDropdown /\
  filteredData (H := exampleHost) people "" byJoined ["joined"] [dateCol]
    = people /\
  filteredData (H := exampleHost) people "" byAge ["age"] [intCol]
    = people /\
  filteredData (H := exampleHost) people "" byJoined ["joined"] [plainCol]
    = [alice] /\
  filterTypeOf (column "joined" None (Some FDate) None) = FDate /\
  filteredData (H := exampleHost) people "" inRange ["joined"]
    [column "joined" None (Some FDate) None] = [] /\
  filteredData (H := exampleHost) people "" inRange ["joined"]
    [column "joined" (Some TDate) None None] = [alice].
Proof. repeat split; vm_compute; reflexivity. Qed.

(** ** Global search *)

Section GlobalSearch.
Context `{Host}.

Lemma globalSearch_blank (search : string) (visibleCols : list string)
    (rows : list Row) :
  trim search = "" -> globalSearch search visibleCols rows = rows.
Proof.
  intros Ht. unfold globalSearch. rewrite Ht. reflexivity.
Qed.

Lemma globalSearch_In (search : string) (visibleCols : list string)
    (rows : list Row) (row : Row) :
  trim search <> "" ->
  In row (globalSearch search visibleCols rows) <->
  In row rows /\
  exists k, In k visibleCols /\
    includes (toLowerCase (String_ (get row k))) (toLowerCase search) = true.
Proof.
  intros Ht. unfold globalSearch.
  destruct (String.eqb_spec (trim search) "") as [He|_]; [contradiction|].
  simpl. rewrite List.filter_In, existsb_exists. reflexivity.
Qed.

(** C2, as the code has it: for every search text that is not blank (its
    trimmed form is non-empty) a row passes the global search if and only
    if, for at least one visible column, the lower-cased stringified field
    contains the lower-cased search text, white space included, as a
    substring; a blank search text removes no row. *)
Theorem filteredData_search_untrimmed (data : list Row) (search : string)
    (visibleCols : list string) (columns : list TableColumn) (row : Row) :
  (trim search <> "" ->
   (In row (filteredData data search ∅ visibleCols columns) <->
    In row data /\
    exists k pre post, In k visibleCols /\
      toLowerCase (String_ (get row k))
      = String.append pre (String.append (toLowerCase search) post))) /\
  (trim search = "" ->
   filteredData data search ∅ visibleCols columns = data).
Proof.
  rewrite filteredData_no_filters. split; [|apply globalSearch_blank].
  intros Ht. rewrite globalSearch_In by exact Ht.
  split.
  - intros [Hin [k [Hk Hinc]]]. split; [exact Hin|].
    apply includes_spec in Hinc. destruct Hinc as [pre [post Heq]].
    exists k, pre, post. split; assumption.
  - intros [Hin [k [pre [post [Hk Heq]]]]]. split; [exact Hin|].
    exists k. split; [exact Hk|]. apply includes_spec. exists pre, post.
    exact Heq.
Qed.

End GlobalSearch.

Lemma filteredData_search_untrimmed_witness :
  let row := mkRow [("name", VString "Alice Smith")] in
  let columns := [column "name" None None None] in
  (In row (filteredData (H := exampleHost) [row] "ce S" ∅ ["name"] columns) <->
   In row [row] /\
   exists k pre post, In k ["name"] /\
     toLowerCase (String_ (get row k))
     = String.append pre (String.append (toLowerCase "ce S") post)) /\
  filteredData (H := exampleHost) [row] "  " ∅ ["name"] columns = [row].
Proof.
  intros row columns. split.
  - apply (proj1 (filteredData_search_untrimmed (H := exampleHost)
                    [row] "ce S" ["name"] columns row)).
    vm_compute. discriminate.
  - apply (proj2 (filteredData_search_untrimmed (H := exampleHost)
                    [row] "  " ["name"] columns row)).
    reflexivity.
Defined.

(** C2 as stated fails: the search text ["alice "] trims to ["alice"],
    which the visible field ["Alice"] contains, yet the row does not pass,
    because the field is matched against the text with its trailing
    space. *)
Lemma filteredData_search_trimmed_counterexample :
  let row := mkRow [("name", VString "Alice")] in
  let search := "alice " in
  search <> "" /\
  ~ (In row (filteredData (H := exampleHost) [row] search ∅ ["name"]
               [column "name" None None None]) <->
     exists k, In k ["name"] /\
       includes (toLowerCase (String_ (get row k)))
                (toLowerCase (trim search)) = true).
Proof.
  intros row search. split; [discriminate|].
  intros [_ Hback].
  assert (Hin : In row (filteredData (H := exampleHost) [row] search ∅
                          ["name"] [column "name" None None None])).
  { apply Hback. exists "name". split; [left; reflexivity|].
    vm_compute. reflexivity. }
  vm_compute in Hin. exact Hin.
Qed.

(** ** Date filters *)

Section DateFilter.
Context `{Host}.

Lemma truthy_nonempty (s : string) : s <> "" -> negb (String.eqb s "") = true.
Proof.
  intros Hs. destruct (String.eqb_spec s ""); [contradiction | reflexivity].
Qed.

Lemma num_le_Num (a b : number) :
  num_le a b = true <-> exists x y, a = Num x /\ b = Num y /\ x <= y.
Proof.
  destruct a as [|x], b as [|y]; simpl;
    try (split; [discriminate | intros (? & ? & ? & ? & ?); discriminate]).
  rewrite Z.leb_le. split.
  - intros Hle. exists x, y. auto.
  - intros (x' & y' & Hx & Hy & Hle). congruence.
Qed.

Lemma num_lt_Num (a b : number) :
  num_lt a b = true <-> exists x y, a = Num x /\ b = Num y /\ x < y.
Proof.
  destruct a as [|x], b as [|y]; simpl;
    try (split; [discriminate | intros (? & ? & ? & ? & ?); discriminate]).
  rewrite Z.ltb_lt. split.
  - intros Hlt. exists x, y. auto.
  - intros (x' & y' & Hx & Hy & Hlt). congruence.
Qed.

Lemma rowDate_Some (col : TableColumn) (row : Row) (d : number) :
  rowDate col row = Some d <->
  truthy (get row (key col)) = true /\ NewDate (get row (key col)) = d.
Proof.
  unfold rowDate. destruct (truthy (get row (key col))); split.
  - intros [= <-]. split; reflexivity.
  - intros [_ ->]. reflexivity.
  - discriminate.
  - intros [Hf _]. discriminate.
Qed.

Lemma columnFilter_range (filters : FilterState) (rows : list Row)
    (col : TableColumn) (filter : FilterEntry) (v v2 : string) :
  filters !! key col = Some filter -> type col = Some TDate ->
  op filter = "range" -> value filter = FVString v -> v <> "" ->
  value2 filter = Some v2 -> v2 <> "" ->
  columnFilter filters rows col
  = List.filter (fun row =>
      match rowDate col row with
      | None => false
      | Some d => num_ge d (NewDate (VString v)) && num_le d (NewDate (VString v2))
      end) rows.
Proof.
  intros Hf Ht Ho Hv Hne Hv2 Hne2. unfold columnFilter.
  rewrite Hf, Hv, Hv2, Ho, Ht. simpl.
  rewrite !truthy_nonempty by assumption. simpl.
  try rewrite bool_decide_eq_true_2 by reflexivity. reflexivity.
Qed.

Lemma columnFilter_before (filters : FilterState) (rows : list Row)
    (col : TableColumn) (filter : FilterEntry) (v : string) :
  filters !! key col = Some filter -> type col = Some TDate ->
  op filter = "before" -> value filter = FVString v -> v <> "" ->
  columnFilter filters rows col
  = List.filter (fun row =>
      match rowDate col row with
      | None => false
      | Some d => num_lt d (NewDate (VString v))
      end) rows.
Proof.
  intros Hf Ht Ho Hv Hne. unfold columnFilter.
  rewrite Hf, Hv, Ho, Ht. simpl.
  rewrite !truthy_nonempty by assumption. simpl.
  try rewrite bool_decide_eq_true_2 by reflexivity. reflexivity.
Qed.

Lemma columnFilter_after (filters : FilterState) (rows : list Row)
    (col : TableColumn) (filter : FilterEntry) (v : string) :
  filters !! key col = Some filter -> type col = Some TDate ->
  op filter = "after" -> value filter = FVString v -> v <> "" ->
  columnFilter filters rows col
  = List.filter (fun row =>
      match rowDate col row with
      | None => false
      | Some d => num_gt d (NewDate (VString v))
      end) rows.
Proof.
  intros Hf Ht Ho Hv Hne. unfold columnFilter.
  rewrite Hf, Hv, Ho, Ht. simpl.
  rewrite !truthy_nonempty by assumption. simpl.
  try rewrite bool_decide_eq_true_2 by reflexivity. reflexivity.
Qed.

Lemma columnFilter_range_unbounded (filters : FilterState) (rows : list Row)
    (col : TableColumn) (filter : FilterEntry) :
  filters !! key col = Some filter -> type col = Some TDate ->
  op filter = "range" -> value2_set (value2 filter) = false ->
  columnFilter filters rows col = rows.
Proof.
  intros Hf Ht Ho Hv2. unfold columnFilter.
  rewrite Hf, Ho, Ht, Hv2. simpl.
  try rewrite bool_decide_eq_true_2 by reflexivity.
  rewrite ?andb_false_r. destruct (fv_truthy (value filter)); reflexivity.
Qed.

End DateFilter.

(** C4 fails on a column that is of the date kind by its [filterType]
    alone.  The filter row gives such a column the date controls, and the
    engine, which takes its date branch on [type] only, applies what they
    store as a text filter: a range that holds Alice's date, a "before"
    bound later than Bob's date and an "after" bound earlier than Alice's
    all leave no row, and a range whose upper bound is not set keeps only
    the row whose text holds the lower bound.  The same entries on the
    column of type [date] give what the claim says. *)
Theorem columnFilter_date_kind_by_filterType :
  let col := column "joined" None (Some FDate) None in
  let typed := column "joined" (Some TDate) None None in
  let alice := mkRow [("name", VString "Alice"); ("age", VNumber (Num 35));
                      ("joined", VString "2020-06-01")] in
  let bob := mkRow [("name", VString "Bob"); ("age", VNumber (Num 40));
                    ("joined", VString "2018-09-15")] in
  let range : FilterState :=
    {[ "joined" := entry "range" (FVString "2020-01-01") (Some "2021-01-01") ]} in
  let before : FilterState :=
    {[ "joined" := entry "before" (FVString "2019-01-01") (Some "") ]} in
  let after : FilterState :=
    {[ "joined" := entry "after" (FVString "2019-01-01") (Some "") ]} in
  let half : FilterState :=
    {[ "joined" := entry "range" (FVString "2020-06-01") (Some "") ]} in
  filterTypeOf col = FDate /\
  filterControl col ∅ ∅ = DateControl /\
  columnFilter (H := exampleHost) range people col = [] /\
  columnFilter (H := exampleHost) range people typed = [alice] /\
  columnFilter (H := exampleHost) before people col = [] /\
  columnFilter (H := exampleHost) before people typed = [bob] /\
  columnFilter (H := exampleHost) after people col = [] /\
  columnFilter (H := exampleHost) after people typed = [alice] /\
  columnFilter (H := exampleHost) half people col = [alice] /\
  columnFilter (H := exampleHost) half people typed = people.
Proof. repeat split; vm_compute; reflexivity. Qed.

Example columnFilter_range_inclusive :
  columnFilter (H := exampleHost)
    {[ "joined" := entry "range" (FVString "2018-09-15") (Some "2020-06-01") ]}
    people (column "joined" (Some TDate) None None) = people.
Proof. vm_compute. reflexivity. Qed.

(** ** Rows without the filtered field *)

Lemma Array_includes_In (l : list string) (x : string) :
  Array_includes l x = true <-> In x l.
Proof.
  unfold Array_includes. rewrite existsb_exists. split.
  - intros [y [Hy He]]. apply String.eqb_eq in He. subst y. exact Hy.
  - intros Hx. exists x. split; [exact Hx | apply String.eqb_refl].
Qed.

Lemma get_missing (row : Row) (k : string) :
  row !! k = None -> get row k = VUndefined.
Proof. intros Hn. unfold get. rewrite Hn. reflexivity. Qed.

Section MissingField.
Context `{Host}.

Lemma columnFilter_dropdown (filters : FilterState) (rows : list Row)
    (col : TableColumn) (filter : FilterEntry) :
  filters !! key col = Some filter ->
  type col <> Some TDate -> type col <> Some TInteger ->
  filterType col = Some FDropdown ->
  getDropdownFilterValue (value filter) <> [] ->
  columnFilter filters rows col
  = List.filter (fun row =>
      Array_includes (getDropdownFilterValue (value filter))
                     (String_ (get row (key col)))) rows.
Proof.
  intros Hf Hd Hi Hft Hsel. unfold columnFilter. rewrite Hf.
  destruct (fv_truthy (value filter)) eqn:Hv; simpl.
  - rewrite !bool_decide_eq_false_2 by assumption.
    rewrite bool_decide_eq_true_2 by assumption.
    destruct (getDropdownFilterValue (value filter)); [contradiction|].
    reflexivity.
  - unfold getDropdownFilterValue in Hsel. rewrite Hv in Hsel.
    contradiction.
Qed.

Lemma columnFilter_contains (filters : FilterState) (rows : list Row)
    (col : TableColumn) (filter : FilterEntry) (s : string) :
  filters !! key col = Some filter ->
  type col <> Some TDate -> type col <> Some TInteger ->
  filterType col <> Some FDropdown ->
  value filter = FVString s -> s <> "" ->
  columnFilter filters rows col
  = List.filter (fun row =>
      includes (toLowerCase (String_ (get row (key col)))) (toLowerCase s))
      rows.
Proof.
  intros Hf Hd Hi Hft Hv Hs. unfold columnFilter. rewrite Hf, Hv. simpl.
  rewrite truthy_nonempty by assumption. simpl.
  rewrite !bool_decide_eq_false_2 by assumption. reflexivity.
Qed.

Lemma columnFilter_missing_date (filters : FilterState) (rows : list Row)
    (col : TableColumn) (filter : FilterEntry) (row : Row) :
  filters !! key col = Some filter -> row !! key col = None ->
  type col = Some TDate ->
  fv_isString (value filter) = true -> fv_truthy (value filter) = true ->
  op filter = "before" \/ op filter = "after" \/
  (op filter = "range" /\ value2_set (value2 filter) = true) ->
  ~ In row (columnFilter filters rows col).
Proof.
  intros Hf Hrow Ht Hstr Hv Hop.
  destruct (value filter) as [|v|l] eqn:Hval; try discriminate.
  assert (Hne : v <> "").
  { intros ->. discriminate. }
  assert (Hnone : rowDate col row = None).
  { unfold rowDate. rewrite (get_missing row (key col) Hrow). reflexivity. }
  destruct Hop as [Ho|[Ho|[Ho Hv2]]].
  - rewrite (columnFilter_before filters rows col filter v) by assumption.
    rewrite List.filter_In, Hnone. intros [_ Hf']. discriminate.
  - rewrite (columnFilter_after filters rows col filter v) by assumption.
    rewrite List.filter_In, Hnone. intros [_ Hf']. discriminate.
  - destruct (value2 filter) as [v2|] eqn:Hval2; [|discriminate].
    assert (Hne2 : v2 <> "").
    { intros ->. discriminate. }
    rewrite (columnFilter_range filters rows col filter v v2) by assumption.
    rewrite List.filter_In, Hnone. intros [_ Hf']. discriminate.
Qed.

Lemma columnFilter_missing_integer (filters : FilterState) (rows : list Row)
    (col : TableColumn) (filter : FilterEntry) (row : Row) :
  filters !! key col = Some filter -> row !! key col = None ->
  type col = Some TInteger -> fv_truthy (value filter) = true ->
  op filter = "=" \/ op filter = "<" \/ op filter = ">" ->
  ~ In row (columnFilter filters rows col).
Proof.
  intros Hf Hrow Ht Hv Hop. unfold columnFilter. rewrite Hf, Hv, Ht. simpl.
  assert (Hnan : Number_ (get row (key col)) = NaN).
  { rewrite (get_missing row (key col) Hrow). reflexivity. }
  destruct Hop as [Ho|[Ho|Ho]]; rewrite Ho; simpl;
    rewrite List.filter_In; unfold num_gt; rewrite Hnan; simpl;
    intros [_ Hf']; try discriminate.
  destruct (fv_Number (value filter)); discriminate.
Qed.

(** C3, as the code has it: a row whose field is missing fails every
    active date filter and every active integer filter, and is then absent
    from the filtered result; under an active dropdown or text filter the
    missing field reads as the string ["undefined"], so the row passes the
    clause exactly when ["undefined"] is among the selected values,
    respectively when ["undefined"] contains the lower-cased filter
    text. *)
Theorem columnFilter_missing_field (data : list Row) (search : string)
    (filters : FilterState) (visibleCols : list string)
    (columns : list TableColumn) (rows : list Row)
    (col : TableColumn) (filter : FilterEntry) (row : Row) :
  filters !! key col = Some filter -> row !! key col = None -> In row rows ->
  (type col = Some TDate ->
   fv_isString (value filter) = true -> fv_truthy (value filter) = true ->
   op filter = "before" \/ op filter = "after" \/
   (op filter = "range" /\ value2_set (value2 filter) = true) ->
   ~ In row (columnFilter filters rows col) /\
   (In col columns ->
    ~ In row (filteredData data search filters visibleCols columns))) /\
  (type col = Some TInteger -> fv_truthy (value filter) = true ->
   op filter = "=" \/ op filter = "<" \/ op filter = ">" ->
   ~ In row (columnFilter filters rows col) /\
   (In col columns ->
    ~ In row (filteredData data search filters visibleCols columns))) /\
  (type col <> Some TDate -> type col <> Some TInteger ->
   filterType col = Some FDropdown ->
   getDropdownFilterValue (value filter) <> [] ->
   (In row (columnFilter filters rows col) <->
    In "undefined" (getDropdownFilterValue (value filter)))) /\
  (type col <> Some TDate -> type col <> Some TInteger ->
   filterType col <> Some FDropdown ->
   forall s, value filter = FVString s -> s <> "" ->
   (In row (columnFilter filters rows col) <->
    exists pre post,
      "undefined" = String.append pre (String.append (toLowerCase s) post))).
Proof.
  intros Hf Hrow Hin. pose proof (get_missing row (key col) Hrow) as Hget.
  split; [|split; [|split]].
  - intros Ht Hstr Hv Hop. split.
    + apply (columnFilter_missing_date filters rows col filter); assumption.
    + intros Hcol Hres.
      apply (filteredData_passes_clause _ _ _ _ _ _ col) in Hres; [|exact Hcol].
      revert Hres.
      apply (columnFilter_missing_date filters data col filter); assumption.
  - intros Ht Hv Hop. split.
    + apply (columnFilter_missing_integer filters rows col filter); assumption.
    + intros Hcol Hres.
      apply (filteredData_passes_clause _ _ _ _ _ _ col) in Hres; [|exact Hcol].
      revert Hres.
      apply (columnFilter_missing_integer filters data col filter); assumption.
  - intros Hd Hi Hft Hsel.
    rewrite (columnFilter_dropdown filters rows col filter) by assumption.
    rewrite List.filter_In, Hget, Array_includes_In. simpl. tauto.
  - intros Hd Hi Hft s Hv Hs.
    rewrite (columnFilter_contains filters rows col filter s) by assumption.
    rewrite List.filter_In, Hget, includes_spec. simpl. tauto.
Qed.

End MissingField.

Lemma columnFilter_missing_field_witness :
  let row := mkRow [("age", VNumber (Num 35))] in
  let nameCol := column "name" (Some TString) None None in
  let joinedCol := column "joined" (Some TDate) None None in
  let byName : FilterState :=
    {[ "name" := entry "contains" (FVString "Ali") None ]} in
  let byJoined : FilterState :=
    {[ "joined" := entry "after" (FVString "2019-01-01") None ]} in
  (~ In row (columnFilter (H := exampleHost) byJoined (row :: people) joinedCol)
   /\
   ~ In row (filteredData (H := exampleHost) (row :: people) "" byJoined
               ["name"; "joined"] [nameCol; joinedCol]))
  /\
  (In row (columnFilter (H := exampleHost) byName (row :: people) nameCol) <->
   exists pre post,
     "undefined"
     = String.append pre (String.append (toLowerCase "Ali") post)).
Proof.
  intros row nameCol joinedCol byName byJoined. split.
  - destruct (columnFilter_missing_field (H := exampleHost) (row :: people) ""
                byJoined ["name"; "joined"] [nameCol; joinedCol]
                (row :: people) joinedCol
                (entry "after" (FVString "2019-01-01") None) row)
      as (Hdate & _); [reflexivity | reflexivity | left; reflexivity |].
    destruct Hdate as [Hclause Hresult];
      [reflexivity | reflexivity | reflexivity | right; left; reflexivity |].
    split; [exact Hclause|]. apply Hresult. right. left. reflexivity.
  - destruct (columnFilter_missing_field (H := exampleHost) (row :: people) ""
                byName ["name"; "joined"] [nameCol; joinedCol]
                (row :: people) nameCol
                (entry "contains" (FVString "Ali") None) row)
      as (_ & _ & _ & Htext); [reflexivity | reflexivity | left; reflexivity |].
    apply Htext; solve [discriminate | reflexivity].
Defined.

(** C3 as stated fails for the text and dropdown filters: a row without a
    [name] passes the active text filter ["de"], and passes the active
    dropdown filter whose selection is ["undefined"], because its field
    is compared as the string ["undefined"]. *)
Lemma columnFilter_missing_field_counterexample :
  let row := mkRow [("age", VNumber (Num 35))] in
  row !! "name" = None /\
  In row (filteredData (H := exampleHost) [row] ""
            {[ "name" := entry "contains" (FVString "de") None ]}
            ["name"; "age"] [column "name" (Some TString) None None]) /\
  In row (filteredData (H := exampleHost) [row] ""
            {[ "name" := entry "in" (FVArray ["undefined"]) None ]}
            ["name"; "age"] [column "name" None (Some FDropdown) None]).
Proof.
  intros row. split; [reflexivity|].
  split; vm_compute; left; reflexivity.
Qed.

(** ** The dropdown filter value *)



(** ** Pagination *)

Section Paginator.
Context {A : Type}.

Lemma ceilDiv_spec (a b : Z) :
  0 < b -> (ceilDiv a b - 1) * b < a <= ceilDiv a b * b.
Proof.
  intros Hb. unfold ceilDiv.
  pose proof (Z.mul_div_le (- a) b Hb) as Hle.
  pose proof (Z.mul_succ_div_gt (- a) b Hb) as Hgt.
  nia.
Qed.

Lemma Array_slice_nonneg (a : list A) (start end_ : Z) :
  0 <= start <= end_ ->
  Array_slice a start end_
  = firstn (Z.to_nat (end_ - start)) (skipn (Z.to_nat start) a).
Proof.
  intros [Hs He]. unfold Array_slice, relativeIndex.
  destruct (Z.ltb_spec start 0) as [?|_]; [lia|].
  destruct (Z.ltb_spec end_ 0) as [?|_]; [lia|].
  remember (Z.of_nat (length a)) as len eqn:Hlen.
  destruct (Z.le_gt_cases len start) as [Hout|Hin].
  - rewrite !skipn_all2 by lia. rewrite !firstn_nil. reflexivity.
  - rewrite (Z.min_l start len) by lia.
    destruct (Z.le_gt_cases end_ len) as [Hfit|Hover].
    + rewrite (Z.min_l end_ len) by lia. rewrite Z.max_l by lia. reflexivity.
    + rewrite (Z.min_r end_ len) by lia. rewrite Z.max_l by lia.
      rewrite !firstn_all2; [reflexivity| |]; rewrite length_skipn; lia.
Qed.

Lemma pagedData_page (R : list A) (page pageSize : Z) :
  0 < pageSize -> 1 <= page ->
  pagedData true R page pageSize
  = firstn (Z.to_nat pageSize) (skipn (Z.to_nat ((page - 1) * pageSize)) R).
Proof.
  intros Hps Hp. unfold pagedData.
  rewrite Array_slice_nonneg by nia.
  f_equal. f_equal. lia.
Qed.

Lemma concat_pages (R : list A) (k n : nat) :
  concat (map (fun i => firstn k (skipn (i * k) R)) (seq 0 n))
  = firstn (n * k) R.
Proof.
  induction n as [|n IH]; [reflexivity|].
  rewrite seq_S, map_app, concat_app, IH. simpl.
  rewrite app_nil_r, take_take_drop. f_equal. lia.
Qed.

(** C5: with [pageSize > 0] and
    [pageCount = max(1, ceil(len(R) / pageSize))], page [p >= 1] is the
    slice of [R] from index [(p-1)*pageSize] to [p*pageSize]; the pages
    [1..pageCount] concatenated are exactly [R]; and every page after
    [pageCount] is empty. *)
Theorem pagedData_covers (R : list A) (pageSize : Z) :
  0 < pageSize ->
  (forall p, 1 <= p ->
     pagedData true R p pageSize
     = firstn (Z.to_nat pageSize) (skipn (Z.to_nat ((p - 1) * pageSize)) R)) /\
  concat (map (fun p => pagedData true R (Z.of_nat p) pageSize)
              (seq 1 (Z.to_nat (pageCount R pageSize)))) = R /\
  (forall p, pageCount R pageSize < p -> pagedData true R p pageSize = []).
Proof.
  intros Hps.
  pose proof (ceilDiv_spec (Z.of_nat (length R)) pageSize Hps) as [_ Hceil].
  assert (Hcount : Z.of_nat (length R) <= pageCount R pageSize * pageSize).
  { unfold pageCount. nia. }
  assert (Hone : 1 <= pageCount R pageSize) by (unfold pageCount; lia).
  split; [|split].
  - intros p Hp. apply pagedData_page; assumption.
  - rewrite <- seq_shift, map_map.
    rewrite (map_ext _ (fun i =>
               firstn (Z.to_nat pageSize) (skipn (i * Z.to_nat pageSize) R))).
    + rewrite concat_pages. apply firstn_all2. nia.
    + intros i. rewrite pagedData_page by lia. f_equal. f_equal. nia.
  - intros p Hp. rewrite pagedData_page by lia.
    rewrite skipn_all2; [apply firstn_nil | nia].
Qed.

End Paginator.

Lemma pagedData_covers_witness :
  let R := [1; 2; 3; 4; 5; 6; 7]%nat in
  pagedData true R 2 3
  = firstn (Z.to_nat 3) (skipn (Z.to_nat ((2 - 1) * 3)) R) /\
  concat (map (fun p => pagedData true R (Z.of_nat p) 3)
              (seq 1 (Z.to_nat (pageCount R 3)))) = R /\
  pagedData true R 4 3 = [].
Proof.
  intros R.
  destruct (pagedData_covers R 3) as (Hpage & Hall & Hpast); [lia|].
  split; [apply Hpage; lia|].
  split; [exact Hall|].
  apply Hpast. vm_compute. reflexivity.
Defined.

Example pagedData_pages_of_seven :
  let R := [1; 2; 3; 4; 5; 6; 7]%nat in
  pageCount R 3 = 3 /\
  map (fun p => pagedData true R p 3) [1; 2; 3; 4]
  = [[1; 2; 3]; [4; 5; 6]; [7]; []]%nat /\
  pageCount (@nil nat) 3 = 1.
Proof. repeat split. Qed.

(** ** Rounding to a double *)

Lemma roundDouble_exact (z : Z) : Z.abs z <= 2 ^ 53 -> roundDouble z = z.
Proof.
  intros H. unfold roundDouble.
  destruct (Z.leb_spec (Z.abs z) (2 ^ 53)); [reflexivity | lia].
Qed.

Lemma roundDouble_large (z : Z) :
  2 ^ 53 < Z.abs z ->
  exists m, 2 ^ 53 <= m /\ roundDouble z = Z.sgn z * m.
Proof.
  intros H. unfold roundDouble.
  destruct (Z.leb_spec (Z.abs z) (2 ^ 53)) as [Hle|_]; [lia|].
  set (e := Z.log2 (Z.abs z) - 52).
  set (q := Z.abs z / 2 ^ e).
  set (q' := if Z.abs z mod 2 ^ e <? 2 ^ (e - 1) then q
             else if 2 ^ (e - 1) <? Z.abs z mod 2 ^ e then q + 1
             else if Z.even q then q else q + 1).
  exists (q' * 2 ^ e). split; [|reflexivity].
  assert (Hpos : 0 < Z.abs z) by lia.
  assert (Hlog : 53 <= Z.log2 (Z.abs z)).
  { apply Z.log2_le_pow2; [exact Hpos | lia]. }
  assert (He : 1 <= e) by (unfold e; lia).
  assert (Hpow : 2 ^ 1 <= 2 ^ e) by (apply Z.pow_le_mono_r; lia).
  assert (Hq : 2 ^ 52 <= q).
  { unfold q. apply Z.div_le_lower_bound; [lia|].
    rewrite Z.mul_comm, <- Z.pow_add_r by lia.
    replace (52 + e) with (Z.log2 (Z.abs z)) by (unfold e; lia).
    apply Z.log2_spec. exact Hpos. }
  assert (Hq' : q <= q').
  { unfold q'. destruct (_ <? _); [lia|].
    destruct (_ <? _); [lia|]. destruct (Z.even q); lia. }
  change (2 ^ 1) with 2 in Hpow. change (2 ^ 53) with (2 ^ 52 * 2).
  apply Z.mul_le_mono_nonneg; lia.
Qed.

Lemma roundDouble_safe (z : Z) :
  Z.abs (roundDouble z) < 2 ^ 53 -> roundDouble z = z.
Proof.
  intros H. destruct (Z_le_gt_dec (Z.abs z) (2 ^ 53)) as [Hle|Hgt].
  - apply roundDouble_exact. exact Hle.
  - destruct (roundDouble_large z) as (m & Hm & Hr); [lia|].
    rewrite Hr in H. rewrite Z.abs_mul in H.
    assert (Z.abs (Z.sgn z) = 1) by lia.
    lia.
Qed.

Lemma roundDouble_sgn (z : Z) : Z.sgn (roundDouble z) = Z.sgn z.
Proof.
  destruct (Z_le_gt_dec (Z.abs z) (2 ^ 53)) as [Hle|Hgt].
  - rewrite roundDouble_exact by exact Hle. reflexivity.
  - destruct (roundDouble_large z) as (m & Hm & ->); [lia|].
    rewrite Z.sgn_mul. rewrite (Z.sgn_pos m) by lia. rewrite Z.sgn_sgn. lia.
Qed.

Lemma roundDouble_neg (z : Z) : roundDouble z < 0 <-> z < 0.
Proof. pose proof (roundDouble_sgn z). lia. Qed.

Lemma roundDouble_pos (z : Z) : 0 < roundDouble z <-> 0 < z.
Proof. pose proof (roundDouble_sgn z). lia. Qed.

Example roundDouble_ties :
  map roundDouble [9007199254740993; 9007199254740995; -18014398509481986]
  = [9007199254740992; 9007199254740996; -18014398509481984].
Proof. vm_compute. reflexivity. Qed.

(** ** Sticky offsets *)

Lemma getStickyLeft_from_fold (cols : list TableColumn) (n i : nat)
    (left : number) :
  (i + n <= length cols)%nat ->
  getStickyLeft_from cols i n left
  = Some (fold_left num_add (map resolvedWidth (firstn n (skipn i cols))) left).
Proof.
  revert i left. induction n as [|n IH]; intros i left Hlen; simpl.
  - reflexivity.
  - destruct (cols !! i) as [col|] eqn:Hcol.
    + rewrite IH by lia.
      rewrite (drop_S cols col i Hcol). reflexivity.
    + apply lookup_ge_None in Hcol. lia.
Qed.

Lemma getStickyLeft_sum (cols : list TableColumn) (i : nat) :
  (i <= length cols)%nat ->
  getStickyLeft cols i = Some (sumWidths (firstn i cols)).
Proof.
  intros Hi. unfold getStickyLeft, sumWidths.
  rewrite getStickyLeft_from_fold by lia. reflexivity.
Qed.

Lemma sumWidths_snoc (cols : list TableColumn) (col : TableColumn) :
  sumWidths (cols ++ [col])%list = num_add (sumWidths cols) (resolvedWidth col).
Proof.
  unfold sumWidths. rewrite map_app, fold_left_app. reflexivity.
Qed.

Lemma endsWith_eq (s suffix : string) :
  endsWith s suffix
  = String.eqb s suffix
    || match s with
       | EmptyString => false
       | String _ s' => endsWith s' suffix
       end.
Proof. destruct s; reflexivity. Qed.

Lemma endsWith_percent_not_px (w : string) :
  endsWith w "%" = true -> endsWith w "px" = false.
Proof.
  induction w as [|c w IH]; [discriminate|].
  rewrite (endsWith_eq _ "%"), (endsWith_eq _ "px").
  intros Hpc. apply orb_true_iff in Hpc. apply orb_false_iff.
  destruct Hpc as [Hpc|Hpc].
  - apply String.eqb_eq in Hpc. injection Hpc as -> ->. split; reflexivity.
  - split; [|apply IH; exact Hpc].
    destruct (String.eqb_spec (String c w) "px") as [He|]; [|reflexivity].
    injection He as -> ->. discriminate.
Qed.

Lemma resolvedWidth_px (col : TableColumn) (w : string) :
  width col = Some w -> endsWith w "px" = true ->
  resolvedWidth col = parseInt w.
Proof.
  intros Hw Hpx. unfold resolvedWidth. rewrite Hw, Hpx.
  destruct w; [discriminate | reflexivity].
Qed.

Lemma resolvedWidth_fallback (col : TableColumn) :
  width col = None \/
  (exists w, width col = Some w /\ endsWith w "px" = false) ->
  resolvedWidth col = Num 120.
Proof.
  unfold resolvedWidth. intros [Hn|[w [Hw Hpx]]].
  - rewrite Hn. reflexivity.
  - rewrite Hw, Hpx, andb_false_r.
    destruct (negb (String.eqb w "") && endsWith w "%"); reflexivity.
Qed.

(** C6, as the code has it: the offset of the column at position [i] is
    the sum of the resolved widths of the columns before it, added from the
    left in floating point, a width ending in [px] resolving to [parseInt]
    of it and an absent width or one not ending in [px] (a percentage) to
    120; the offset of position [i+1] is that of [i] plus the resolved width
    of column [i]; so when the offsets of the positions up to [i+1] are safe
    integers (numbers of magnitude below [2^53]), the resolved width of
    column [i] is a number, the difference of the offsets of [i+1] and [i]
    is that width, and the offset does not decrease when the width is not
    negative. *)
Theorem getStickyLeft_offsets (cols : list TableColumn) (i : nat)
    (col : TableColumn) :
  cols !! i = Some col ->
  getStickyLeft cols i = Some (sumWidths (firstn i cols)) /\
  getStickyLeft cols (S i)
  = Some (num_add (sumWidths (firstn i cols)) (resolvedWidth col)) /\
  (forall w, width col = Some w -> endsWith w "px" = true ->
     resolvedWidth col = parseInt w) /\
  (width col = None \/
   (exists w, width col = Some w /\ endsWith w "%" = true) ->
   resolvedWidth col = Num 120) /\
  ((forall n, (n <= S i)%nat ->
      exists z, getStickyLeft cols n = Some (Num z) /\ Z.abs z < 2 ^ 53) ->
   exists l l' w,
     getStickyLeft cols i = Some (Num l) /\
     getStickyLeft cols (S i) = Some (Num l') /\
     resolvedWidth col = Num w /\ l' - l = w /\ (0 <= w -> l <= l')).
Proof.
  intros Hcol.
  assert (Hlt : (i < length cols)%nat) by (eapply lookup_lt_Some; eassumption).
  assert (Hsnoc : firstn (S i) cols = (firstn i cols ++ [col])%list).
  { apply take_S_r. exact Hcol. }
  assert (Hnext : getStickyLeft cols (S i)
                  = Some (num_add (sumWidths (firstn i cols)) (resolvedWidth col))).
  { rewrite getStickyLeft_sum by lia. rewrite Hsnoc, sumWidths_snoc.
    reflexivity. }
  split; [apply getStickyLeft_sum; lia|].
  split; [exact Hnext|].
  split; [intros w; apply resolvedWidth_px|].
  split.
  - intros [Hn|[w [Hw Hpc]]]; apply resolvedWidth_fallback; [left; exact Hn|].
    right. exists w. split; [exact Hw|].
    apply endsWith_percent_not_px. exact Hpc.
  - intros Hsafe.
    destruct (Hsafe i) as (l & Hl & _); [lia|].
    destruct (Hsafe (S i)) as (l' & Hl' & Hbound); [lia|].
    rewrite Hnext in Hl'. rewrite getStickyLeft_sum in Hl by lia.
    injection Hl as Hl. rewrite Hl in Hl'.
    destruct (resolvedWidth col) as [|w]; [discriminate|].
    injection Hl' as Hl'. subst l'.
    exists l, (roundDouble (l + w)), w.
    rewrite Hnext, getStickyLeft_sum by lia. rewrite Hl.
    split; [reflexivity|]. split; [reflexivity|]. split; [reflexivity|].
    apply roundDouble_safe in Hbound. lia.
Qed.

Lemma getStickyLeft_offsets_witness :
  let cols := [column "id" None None (Some "80px");
               column "name" None None (Some "20%");
               column "age" None None None] in
  exists l l' w,
    getStickyLeft cols 1 = Some (Num l) /\
    getStickyLeft cols 2 = Some (Num l') /\
    resolvedWidth (column "name" None None (Some "20%")) = Num w /\
    l' - l = w /\ l <= l'.
Proof.
  intros cols.
  destruct (getStickyLeft_offsets cols 1 (column "name" None None (Some "20%")))
    as (_ & _ & _ & _ & Hdiff); [reflexivity|].
  destruct Hdiff as (l & l' & w & H0 & H1 & Hw & Hd & Hmono).
  { intros n Hn.
    destruct n as [|[|[|n]]]; [exists 0 | exists 80 | exists 200 | lia];
      (split; [reflexivity | vm_compute; reflexivity]). }
  exists l, l', w. repeat split; try assumption.
  apply Hmono. vm_compute in Hw. injection Hw as <-. lia.
Defined.

(** C6 as stated fails: with the width ["-5px"] the offset decreases from
    position 0 to position 1; with the width ["px"], which parses to [NaN],
    the offsets after it are [NaN] and their difference is not the width
    of the column between them; and after a width of [2^53] pixels a
    column one pixel wide does not move the offset, the sum being rounded
    to a double. *)
Lemma getStickyLeft_offsets_counterexample :
  let narrow := [column "id" None None (Some "-5px");
                 column "name" None None (Some "100px")] in
  let unparsed := [column "id" None None (Some "px");
                   column "name" None None (Some "100px");
                   column "age" None None None] in
  let wide := [column "id" None None (Some "9007199254740992px");
               column "name" None None (Some "1px");
               column "age" None None None] in
  (exists l l', getStickyLeft narrow 0 = Some (Num l) /\
                getStickyLeft narrow 1 = Some (Num l') /\ l' < l) /\
  (exists left left', getStickyLeft unparsed 1 = Some left /\
                      getStickyLeft unparsed 2 = Some left' /\
                      num_sub left' left
                      <> resolvedWidth (column "name" None None (Some "100px"))) /\
  (getStickyLeft wide 1 = Some (Num 9007199254740992) /\
   getStickyLeft wide 2 = Some (Num 9007199254740992) /\
   resolvedWidth (column "name" None None (Some "1px")) = Num 1 /\
   parseInt "9007199254740993px" = Num 9007199254740992).
Proof.
  intros narrow unparsed wide. split; [|split].
  - exists 0, (-5). repeat split.
  - exists NaN, NaN. repeat split. vm_compute. discriminate.
  - repeat split; vm_compute; reflexivity.
Qed.

Example getStickyLeft_example :
  getStickyLeft [column "id" None None (Some "80px");
                 column "name" None None (Some "20%");
                 column "age" None None None] 3 = Some (Num 320) /\
  getStickyLeft [column "id" None None (Some "80px")] 2 = None.
Proof. split; reflexivity. Qed.

(** ** The popover of the multi-select dropdown *)

Module Popover.
Import MultiSelectDropdown.

Lemma handleSelect_open (o : string) (st : Popover) :
  open (handleSelect o st) = false.
Proof. unfold handleSelect. destruct (Array_includes _ _); reflexivity. Qed.

Lemma handleSelectAll_open (options : list string) (st : Popover) :
  open (handleSelectAll options st) = false.
Proof. unfold handleSelectAll. destruct (allSelected _ _); reflexivity. Qed.

(** C9, as the code has it: while the popover is open, a pointer-down
    whose target is outside both the trigger and the menu closes it; a
    pointer-down whose target is inside the trigger or inside the menu
    leaves the state as it is; the Escape key closes it; the pointer and
    key events leave the selection alone.  But [toggleOption] and
    [toggleSelectAll] do not leave it open: they hand the new selection to
    the parent, whose render mounts the dropdown anew, closed. *)
Theorem dispatch_while_open (refs : Refs) (options : list string)
    (st : Popover) :
  open st = true ->
  (forall target,
     refContains (btnRef refs) target = false ->
     refContains (menuRef refs) target = false ->
     dispatch refs options st (MouseDown target)
     = {| open := false; selected := selected st |}) /\
  (forall target,
     refContains (btnRef refs) target = true \/
     refContains (menuRef refs) target = true ->
     dispatch refs options st (MouseDown target) = st) /\
  dispatch refs options st (KeyDown "Escape")
  = {| open := false; selected := selected st |} /\
  (forall o, open (dispatch refs options st (ToggleOption o)) = false) /\
  open (dispatch refs options st ToggleSelectAll) = false.
Proof.
  intros Hopen. repeat split.
  - intros target Hb Hm. simpl. rewrite Hopen. unfold handle.
    rewrite Hb, Hm. reflexivity.
  - intros target Hin. simpl. rewrite Hopen. unfold handle.
    destruct Hin as [-> | ->]; rewrite ?orb_true_r; reflexivity.
  - simpl. rewrite Hopen. reflexivity.
  - intros o. simpl. apply handleSelect_open.
  - simpl. apply handleSelectAll_open.
Qed.

Lemma dispatch_while_open_witness :
  let trigger : Element := fun n => (n =? 1)%nat in
  let menu : Element := fun n => (2 <=? n)%nat && (n <=? 5)%nat in
  let refs := {| btnRef := Some trigger; menuRef := Some menu |} in
  let st := {| open := true; selected := ["Admin"] |} in
  dispatch refs ["Admin"; "User"] st (MouseDown 9%nat)
  = {| open := false; selected := ["Admin"] |} /\
  dispatch refs ["Admin"; "User"] st (MouseDown 3%nat) = st /\
  dispatch refs ["Admin"; "User"] st (KeyDown "Escape")
  = {| open := false; selected := ["Admin"] |} /\
  open (dispatch refs ["Admin"; "User"] st (ToggleOption "User")) = false /\
  open (dispatch refs ["Admin"; "User"] st ToggleSelectAll) = false.
Proof.
  intros trigger menu refs st.
  destruct (dispatch_while_open refs ["Admin"; "User"] st)
    as (Hout & Hin & Hesc & Hopt & Hall); [reflexivity|].
  split; [apply Hout; reflexivity|].
  split; [apply Hin; right; reflexivity|].
  split; [exact Hesc|].
  split; [apply Hopt | exact Hall].
Defined.

Example dispatch_selection :
  let st := {| open := true; selected := ["Admin"] |} in
  let refs := {| btnRef := None; menuRef := None |} in
  selected (dispatch refs ["Admin"; "User"] st (ToggleOption "User"))
  = ["Admin"; "User"] /\
  selected (dispatch refs ["Admin"; "User"] st (ToggleOption "Admin")) = [] /\
  selected (dispatch refs ["Admin"; "User"] st ToggleSelectAll)
  = ["Admin"; "User"] /\
  dispatch refs ["Admin"; "User"] {| open := false; selected := [] |}
    (MouseDown 9%nat) = {| open := false; selected := [] |}.
Proof. repeat split. Qed.

End Popover.

(** ** Array.prototype.sort: permutation and order of the items *)

Section Before.
Context {A : Type}.
Implicit Types (x y z : A) (l : list A).

Lemma before_app x y l1 l2 :
  before x y (l1 ++ l2) <->
  before x y l1 \/ before x y l2 \/ (In x l1 /\ In y l2).
Proof.
  induction l1 as [|a l1 IH]; simpl.
  - tauto.
  - rewrite IH, in_app_iff. intuition (subst; auto).
Qed.

Lemma before_In x y l : before x y l -> In x l /\ In y l.
Proof.
  induction l as [|a l IH]; simpl; [tauto|].
  intros [[-> Hy]|Hb]; [tauto|]. apply IH in Hb. tauto.
Qed.

Lemma before_rev x y l : before x y (rev l) <-> before y x l.
Proof.
  induction l as [|a l IH]; simpl; [tauto|].
  rewrite before_app, IH. simpl. rewrite <- in_rev.
  intuition (subst; auto).
Qed.

Lemma before_insert x y z l1 l2 :
  before x y (l1 ++ l2) -> before x y (l1 ++ z :: l2).
Proof.
  rewrite !before_app. simpl. tauto.
Qed.

Lemma before_lookup x y l :
  before x y l <->
  exists p q, (p < q)%nat /\ l !! p = Some x /\ l !! q = Some y.
Proof.
  induction l as [|a l IH]; simpl.
  - split; [tauto|]. intros (p & q & _ & Hp & _). discriminate.
  - rewrite IH. split.
    + intros [[-> Hy]|(p & q & Hlt & Hp & Hq)].
      * apply list_elem_of_In, list_elem_of_lookup in Hy. destruct Hy as [q Hq].
        exists O, (S q). split; [lia|]. split; [reflexivity | exact Hq].
      * exists (S p), (S q). split; [lia|]. split; assumption.
    + intros (p & q & Hlt & Hp & Hq).
      destruct q as [|q]; [lia|]. simpl in Hq.
      destruct p as [|p]; simpl in Hp.
      * left. split; [congruence|].
        apply list_elem_of_In, list_elem_of_lookup. exists q. exact Hq.
      * right. exists p, q. split; [lia|]. split; assumption.
Qed.

Lemma before_map {B : Type} (f : A -> B) x y l :
  before x y l -> before (f x) (f y) (map f l).
Proof.
  induction l as [|a l IH]; simpl; [tauto|].
  intros [[-> Hy]|Hb]; [left | right; auto].
  split; [reflexivity | apply in_map; exact Hy].
Qed.

End Before.

Section ArraySort.
Context {A : Type} (comparefn : A -> A -> number).

Lemma extendRun_spec (d : bool) (previous : A) (a : list A) :
  a = ((extendRun comparefn d previous a).1
       ++ (extendRun comparefn d previous a).2)%list /\
  chained (fun p c => lessThan comparefn c p = d) previous
    (extendRun comparefn d previous a).1.
Proof.
  revert previous. induction a as [|current a IH]; intros previous; simpl.
  - split; [reflexivity | exact I].
  - assert (Hbreak : (if d then 0 <=? SortCompare comparefn current previous
                      else SortCompare comparefn current previous <? 0)
                     = negb (Bool.eqb (lessThan comparefn current previous) d)).
    { unfold lessThan. destruct d.
      - destruct (Z.ltb_spec (SortCompare comparefn current previous) 0),
                 (Z.leb_spec 0 (SortCompare comparefn current previous));
          simpl; try reflexivity; lia.
      - destruct (SortCompare comparefn current previous <? 0); reflexivity. }
    rewrite Hbreak.
    destruct (Bool.eqb (lessThan comparefn current previous) d) eqn:Hd; simpl.
    + apply Bool.eqb_prop in Hd.
      destruct (IH current) as [Happ Hch].
      destruct (extendRun comparefn d current a) as [run rest]. simpl in *.
      split; [f_equal; exact Happ|]. split; assumption.
    + split; [reflexivity | exact I].
Qed.

Lemma CountAndMakeRun_eq (e0 e1 : A) (a : list A) :
  CountAndMakeRun comparefn (e0 :: e1 :: a)
  = (if lessThan comparefn e1 e0
     then rev (e0 :: e1 :: (extendRun comparefn (lessThan comparefn e1 e0) e1 a).1)
     else e0 :: e1 :: (extendRun comparefn (lessThan comparefn e1 e0) e1 a).1,
     (extendRun comparefn (lessThan comparefn e1 e0) e1 a).2).
Proof.
  unfold CountAndMakeRun, lessThan.
  destruct (extendRun _ _ _ _); reflexivity.
Qed.

Lemma CountAndMakeRun_spec (a : list A) :
  exists (whole : list A) (d : bool),
    a = (whole ++ (CountAndMakeRun comparefn a).2)%list /\
    (CountAndMakeRun comparefn a).1 = (if d then rev whole else whole) /\
    match whole with
    | [] => True
    | first :: run => chained (fun p c => lessThan comparefn c p = d) first run
    end.
Proof.
  destruct a as [|e0 [|e1 a]].
  - exists [], false. repeat split.
  - exists [e0], false. repeat split.
  - rewrite CountAndMakeRun_eq.
    destruct (extendRun_spec (lessThan comparefn e1 e0) e1 a) as [Happ Hch].
    destruct (extendRun comparefn (lessThan comparefn e1 e0) e1 a)
      as [run rest]. simpl in *.
    exists (e0 :: e1 :: run), (lessThan comparefn e1 e0). simpl.
    split; [do 2 f_equal; exact Happ|].
    split; [reflexivity|]. split; [reflexivity | exact Hch].
Qed.

Lemma CountAndMakeRun_Permutation (a : list A) :
  Permutation
    ((CountAndMakeRun comparefn a).1 ++ (CountAndMakeRun comparefn a).2) a.
Proof.
  destruct (CountAndMakeRun_spec a) as (whole & d & Happ & Hrun & _).
  rewrite Hrun.
  apply (Permutation_trans
           (l' := (whole ++ (CountAndMakeRun comparefn a).2)%list));
    [|rewrite <- Happ; reflexivity].
  apply Permutation_app_tail.
  destruct d; [symmetry; apply Permutation_rev | reflexivity].
Qed.

Lemma mid_bounds (left right : nat) :
  (left < right)%nat ->
  (left <= left + (right - left) / 2 < right)%nat.
Proof.
  intros Hlt.
  assert ((right - left) / 2 < right - left)%nat by (apply Nat.div_lt; lia).
  lia.
Qed.

Lemma binarySearch_S (pivot : A) (s : list A) (fuel left right : nat) :
  binarySearch comparefn pivot s (S fuel) left right
  = if (left <? right)%nat then
      match s !! (left + (right - left) / 2)%nat with
      | Some midElement =>
          if lessThan comparefn pivot midElement
          then binarySearch comparefn pivot s fuel
                 left (left + (right - left) / 2)
          else binarySearch comparefn pivot s fuel
                 (left + (right - left) / 2 + 1) right
      | None => left
      end
    else left.
Proof. reflexivity. Qed.

Lemma binarySearch_bounds (pivot : A) (s : list A) (fuel left right : nat) :
  (left <= right)%nat ->
  (left <= binarySearch comparefn pivot s fuel left right <= right)%nat.
Proof.
  revert left right. induction fuel as [|fuel IH]; intros left right Hle.
  - simpl. lia.
  - rewrite binarySearch_S.
    destruct (Nat.ltb_spec left right) as [Hlt|_]; [|lia].
    pose proof (mid_bounds left right Hlt) as Hmid.
    remember (left + (right - left) / 2)%nat as mid eqn:Emid. clear Emid.
    destruct (s !! mid) as [x|]; [|lia].
    destruct (lessThan comparefn pivot x).
    + assert (left <= binarySearch comparefn pivot s fuel left mid <= mid)%nat
        by (apply IH; lia).
      lia.
    + assert (mid + 1 <= binarySearch comparefn pivot s fuel (mid + 1) right
              <= right)%nat by (apply IH; lia).
      lia.
Qed.

Lemma binarySearch_upper (pivot : A) (s : list A) (b fuel left right : nat) :
  (left <= b)%nat ->
  (forall i x, (b <= i < right)%nat -> s !! i = Some x ->
     lessThan comparefn pivot x = true) ->
  (binarySearch comparefn pivot s fuel left right <= b)%nat.
Proof.
  revert left right. induction fuel as [|fuel IH]; intros left right Hle Hhi.
  - exact Hle.
  - rewrite binarySearch_S.
    destruct (Nat.ltb_spec left right) as [Hlt|_]; [|exact Hle].
    pose proof (mid_bounds left right Hlt) as Hmid.
    remember (left + (right - left) / 2)%nat as mid eqn:Emid. clear Emid.
    destruct (s !! mid) as [x|] eqn:Hx; [|exact Hle].
    destruct (lessThan comparefn pivot x) eqn:Hord.
    + apply IH; [exact Hle|]. intros i y Hi. apply Hhi. lia.
    + apply IH; [|exact Hhi].
      destruct (Nat.le_gt_cases b mid) as [Hb|Hb]; [|lia].
      rewrite (Hhi mid x) in Hord; [discriminate | lia | exact Hx].
Qed.

Lemma binarySearch_lower (pivot : A) (s : list A) (b fuel left right : nat) :
  (right - left <= fuel)%nat -> (b <= right)%nat -> (right <= length s)%nat ->
  (forall i x, (left <= i < b)%nat -> s !! i = Some x ->
     lessThan comparefn pivot x = false) ->
  (b <= binarySearch comparefn pivot s fuel left right)%nat.
Proof.
  revert left right. induction fuel as [|fuel IH];
    intros left right Hfuel Hb Hlen Hlo.
  - simpl. lia.
  - rewrite binarySearch_S.
    destruct (Nat.ltb_spec left right) as [Hlt|Hge]; [|lia].
    pose proof (mid_bounds left right Hlt) as Hmid.
    remember (left + (right - left) / 2)%nat as mid eqn:Emid. clear Emid.
    destruct (lookup_lt_is_Some_2 s mid) as [x Hx]; [lia|].
    rewrite Hx. destruct (lessThan comparefn pivot x) eqn:Hord.
    + apply IH; [lia| |lia|exact Hlo].
      destruct (Nat.le_gt_cases b mid) as [Hle|Hgt]; [exact Hle|].
      rewrite (Hlo mid x) in Hord; [discriminate | lia | exact Hx].
    + apply IH; [lia | exact Hb | exact Hlen |].
      intros i y Hi. apply Hlo. lia.
Qed.

(** The search ends by its own test, not by the count of steps. *)
Lemma binarySearch_fuel (pivot : A) (s : list A) (fuel fuel' left right : nat) :
  (right - left <= fuel)%nat -> (right - left <= fuel')%nat ->
  binarySearch comparefn pivot s fuel left right
  = binarySearch comparefn pivot s fuel' left right.
Proof.
  revert fuel' left right. induction fuel as [|fuel IH];
    intros fuel' left right Hf Hf'.
  - destruct fuel'; [reflexivity|]. rewrite binarySearch_S.
    destruct (Nat.ltb_spec left right); [lia | reflexivity].
  - destruct fuel' as [|fuel']; rewrite !binarySearch_S.
    + destruct (Nat.ltb_spec left right); [lia | reflexivity].
    + destruct (Nat.ltb_spec left right) as [Hlt|_]; [|reflexivity].
      pose proof (mid_bounds left right Hlt) as Hmid.
      remember (left + (right - left) / 2)%nat as mid eqn:Emid. clear Emid.
      destruct (s !! mid) as [x|]; [|reflexivity].
      destruct (lessThan comparefn pivot x); apply IH; lia.
Qed.

Lemma insertPivot_split (sorted : list A) (pivot : A) :
  exists l1 l2, sorted = (l1 ++ l2)%list /\
                insertPivot comparefn sorted pivot = (l1 ++ pivot :: l2)%list.
Proof.
  unfold insertPivot.
  set (left := binarySearch comparefn pivot sorted
                 (length sorted) 0 (length sorted)).
  exists (firstn left sorted), (skipn left sorted).
  split; [symmetry; apply firstn_skipn | reflexivity].
Qed.

Lemma insertPivot_boundary (l1 l2 : list A) (pivot : A) :
  List.Forall (fun x => lessThan comparefn pivot x = false) l1 ->
  List.Forall (fun x => lessThan comparefn pivot x = true) l2 ->
  insertPivot comparefn (l1 ++ l2) pivot = (l1 ++ pivot :: l2)%list.
Proof.
  intros H1 H2. unfold insertPivot.
  rewrite List.Forall_forall in H1, H2.
  assert (Hb : binarySearch comparefn pivot (l1 ++ l2)
                 (length (l1 ++ l2)) 0 (length (l1 ++ l2)) = length l1).
  { apply Nat.le_antisymm.
    - apply binarySearch_upper; [lia|].
      intros i x Hi Hx. rewrite lookup_app_r in Hx by lia.
      apply H2. apply list_elem_of_In. eapply list_elem_of_lookup_2. exact Hx.
    - apply binarySearch_lower; [lia | rewrite length_app; lia | lia |].
      intros i x Hi Hx. rewrite lookup_app_l in Hx by lia.
      apply H1. apply list_elem_of_In. eapply list_elem_of_lookup_2. exact Hx. }
  rewrite Hb. rewrite take_app_length, drop_app_length. reflexivity.
Qed.

Lemma insertPivot_Permutation (sorted : list A) (pivot : A) :
  Permutation (insertPivot comparefn sorted pivot) (pivot :: sorted).
Proof.
  destruct (insertPivot_split sorted pivot) as (l1 & l2 & -> & ->).
  symmetry. apply Permutation_middle.
Qed.

Lemma BinaryInsertionSort_Permutation (run rest : list A) :
  Permutation (BinaryInsertionSort comparefn run rest) (run ++ rest).
Proof.
  unfold BinaryInsertionSort.
  revert run. induction rest as [|pivot rest IH]; intros run; simpl.
  - rewrite app_nil_r. reflexivity.
  - rewrite IH. rewrite insertPivot_Permutation.
    simpl. apply Permutation_middle.
Qed.

Lemma Array_sort_Permutation (a : list A) :
  Permutation (Array_sort comparefn a) a.
Proof.
  unfold Array_sort.
  pose proof (CountAndMakeRun_Permutation a) as Hrun.
  destruct (CountAndMakeRun comparefn a) as [run rest]. simpl in Hrun.
  rewrite BinaryInsertionSort_Permutation. exact Hrun.
Qed.

End ArraySort.

(** A comparator whose "less than" is a strict weak order on the items:
    the result is in order, and items neither of which is less than the
    other keep their order. *)
Section ArraySortOrdered.
Context {A : Type} (comparefn : A -> A -> number) (P : A -> Prop).
Hypothesis lt_asym :
  forall x y, P x -> P y ->
    lessThan comparefn x y = true -> lessThan comparefn y x = false.
Hypothesis lt_cotrans :
  forall x y z, P x -> P y -> P z ->
    lessThan comparefn x y = true ->
    lessThan comparefn x z = true \/ lessThan comparefn z y = true.

Lemma lessThan_trans (x y z : A) :
  P x -> P y -> P z ->
  lessThan comparefn x y = true -> lessThan comparefn y z = true ->
  lessThan comparefn x z = true.
Proof.
  intros Hx Hy Hz Hxy Hyz.
  destruct (lt_cotrans x y z Hx Hy Hz Hxy) as [H|H]; [exact H|].
  rewrite (lt_asym z y Hz Hy H) in Hyz. discriminate.
Qed.

Lemma notLessThan_trans (x y z : A) :
  P x -> P y -> P z ->
  lessThan comparefn y x = false -> lessThan comparefn z y = false ->
  lessThan comparefn z x = false.
Proof.
  intros Hx Hy Hz Hyx Hzy.
  destruct (lessThan comparefn z x) eqn:Hzx; [|reflexivity].
  destruct (lt_cotrans z x y Hz Hx Hy Hzx) as [H|H]; congruence.
Qed.

Lemma chained_In (R : A -> A -> Prop) (previous : A) (run : list A) :
  (forall x y z, P x -> P y -> P z -> R x y -> R y z -> R x z) ->
  P previous -> List.Forall P run -> chained R previous run ->
  forall y, In y run -> R previous y.
Proof.
  intros Htrans. revert previous.
  induction run as [|c run IH]; intros previous Hp Hrun Hch y Hy; [destruct Hy|].
  destruct Hch as [Hpc Hch]. inversion Hrun as [|? ? Hc Hrun']; subst.
  destruct Hy as [<-|Hy]; [exact Hpc|].
  apply (Htrans previous c y); try assumption.
  - rewrite List.Forall_forall in Hrun'. apply Hrun'. exact Hy.
  - apply IH; assumption.
Qed.

Lemma chained_before (R : A -> A -> Prop) (previous : A) (run : list A) :
  (forall x y z, P x -> P y -> P z -> R x y -> R y z -> R x z) ->
  P previous -> List.Forall P run -> chained R previous run ->
  forall x y, before x y (previous :: run) -> R x y.
Proof.
  intros Htrans. revert previous.
  induction run as [|c run IH]; intros previous Hp Hrun Hch x y Hb.
  - simpl in Hb. destruct Hb as [[_ []]|[]].
  - destruct Hb as [[<- Hy]|Hb].
    + apply (chained_In R previous (c :: run)); assumption.
    + destruct Hch as [_ Hch]. inversion Hrun; subst.
      apply (IH c); assumption.
Qed.

Lemma CountAndMakeRun_ordered (a : list A) :
  List.Forall P a ->
  exists whole,
    a = (whole ++ (CountAndMakeRun comparefn a).2)%list /\
    Permutation (CountAndMakeRun comparefn a).1 whole /\
    (forall x y, before x y (CountAndMakeRun comparefn a).1 ->
       lessThan comparefn y x = false) /\
    (forall x y, before x y whole -> lessThan comparefn y x = false ->
       before x y (CountAndMakeRun comparefn a).1).
Proof.
  intros Ha.
  destruct (CountAndMakeRun_spec comparefn a) as (whole & d & Happ & Hrun & Hch).
  exists whole. split; [exact Happ|]. rewrite Hrun.
  assert (Hw : List.Forall P whole).
  { rewrite Happ in Ha. apply List.Forall_app in Ha. tauto. }
  destruct whole as [|first run].
  { destruct d; simpl; repeat split; auto; intros x y []. }
  inversion Hw as [|? ? Hfirst Hrun']; subst.
  assert (Hall : forall x y, before x y (first :: run) ->
                   lessThan comparefn y x = d).
  { apply (chained_before (fun p c => lessThan comparefn c p = d)); try assumption.
    intros x y z Hx Hy Hz Hxy Hyz. destruct d.
    - apply (lessThan_trans z y x); assumption.
    - apply (notLessThan_trans x y z); assumption. }
  assert (HP : forall x y, before x y (first :: run) -> P x /\ P y).
  { intros x y Hb. apply before_In in Hb. rewrite List.Forall_forall in Hw.
    split; apply Hw; tauto. }
  destruct d.
  - split; [symmetry; apply Permutation_rev|]. split.
    + intros x y Hb. apply (proj1 (before_rev _ _ _)) in Hb.
      destruct (HP _ _ Hb). apply lt_asym; [assumption..|].
      apply Hall. exact Hb.
    + intros x y Hb Hn. rewrite (Hall _ _ Hb) in Hn. discriminate.
  - split; [reflexivity|]. split; [exact Hall|]. intros x y Hb _. exact Hb.
Qed.

Lemma ordered_split (pivot : A) (s : list A) :
  P pivot -> List.Forall P s ->
  (forall x y, before x y s -> lessThan comparefn y x = false) ->
  exists l1 l2, s = (l1 ++ l2)%list /\
    List.Forall (fun x => lessThan comparefn pivot x = false) l1 /\
    List.Forall (fun x => lessThan comparefn pivot x = true) l2.
Proof.
  intros Hp. induction s as [|x s IH]; intros Hs Hord.
  - exists [], []. repeat split; constructor.
  - inversion Hs as [|? ? Hx Hs']; subst.
    destruct (lessThan comparefn pivot x) eqn:Hpx.
    + exists [], (x :: s). split; [reflexivity|]. split; [constructor|].
      constructor; [exact Hpx|].
      apply List.Forall_forall. intros y Hy.
      assert (Py : P y) by (rewrite List.Forall_forall in Hs'; apply Hs'; exact Hy).
      destruct (lt_cotrans pivot x y Hp Hx Py Hpx) as [H|H]; [exact H|].
      rewrite (Hord x y) in H; [discriminate|]. left. split; [reflexivity | exact Hy].
    + destruct IH as (l1 & l2 & -> & H1 & H2); [exact Hs'| |].
      { intros a b Hb. apply Hord. right. exact Hb. }
      exists (x :: l1), l2. split; [reflexivity|].
      split; [constructor; assumption | exact H2].
Qed.

Lemma BinaryInsertionSort_ordered (rest done sorted : list A) :
  List.Forall P done -> List.Forall P rest ->
  Permutation sorted done ->
  (forall x y, before x y sorted -> lessThan comparefn y x = false) ->
  (forall x y, before x y done -> lessThan comparefn y x = false ->
     before x y sorted) ->
  (forall x y, before x y (BinaryInsertionSort comparefn sorted rest) ->
     lessThan comparefn y x = false) /\
  (forall x y, before x y (done ++ rest) -> lessThan comparefn y x = false ->
     before x y (BinaryInsertionSort comparefn sorted rest)).
Proof.
  unfold BinaryInsertionSort.
  revert done sorted. induction rest as [|pivot rest IH];
    intros done sorted Hdone Hrest Hperm Hord Hkeep; simpl.
  - rewrite app_nil_r. split; assumption.
  - inversion Hrest as [|? ? Hp Hrest']; subst.
    assert (Hsorted : List.Forall P sorted).
    { apply List.Forall_forall. intros x Hx.
      rewrite List.Forall_forall in Hdone. apply Hdone.
      apply (Permutation_in _ Hperm). exact Hx. }
    destruct (ordered_split pivot sorted Hp Hsorted Hord)
      as (l1 & l2 & -> & H1 & H2).
    rewrite (insertPivot_boundary comparefn l1 l2 pivot H1 H2).
    replace (done ++ pivot :: rest)%list with ((done ++ [pivot]) ++ rest)%list
      by (rewrite <- app_assoc; reflexivity).
    rewrite List.Forall_forall in H1, H2.
    apply IH.
    + apply List.Forall_app. split; [exact Hdone | constructor; [exact Hp | constructor]].
    + exact Hrest'.
    + rewrite <- Hperm. rewrite <- Permutation_middle.
      apply Permutation_cons_append.
    + intros x y Hb. apply before_app in Hb.
      destruct Hb as [Hb|[Hb|[Hx Hy]]].
      * apply Hord. apply before_app. left. exact Hb.
      * destruct Hb as [[<- Hy]|Hb].
        -- rewrite List.Forall_forall in Hsorted.
           apply lt_asym; [exact Hp | apply Hsorted, in_or_app; right; exact Hy|].
           apply H2. exact Hy.
        -- apply Hord. apply before_app. right. left. exact Hb.
      * destruct Hy as [<-|Hy]; [apply H1; exact Hx|].
        apply Hord. apply before_app. right. right. split; assumption.
    + intros x y Hb Hn. apply before_app in Hb.
      destruct Hb as [Hb|[Hb|[Hx Hy]]].
      * apply before_insert. apply Hkeep; assumption.
      * simpl in Hb. destruct Hb as [[_ []]|[]].
      * destruct Hy as [<-|[]].
        apply (Permutation_in _ (Permutation_sym Hperm)) in Hx.
        apply in_app_or in Hx. destruct Hx as [Hx|Hx].
        -- apply before_app. right. right. split; [exact Hx | left; reflexivity].
        -- rewrite (H2 x Hx) in Hn. discriminate.
Qed.

Lemma Array_sort_ordered_keeps (a : list A) :
  List.Forall P a ->
  (forall x y, before x y (Array_sort comparefn a) ->
     lessThan comparefn y x = false) /\
  (forall x y, before x y a -> lessThan comparefn y x = false ->
     before x y (Array_sort comparefn a)).
Proof.
  intros Ha. unfold Array_sort.
  destruct (CountAndMakeRun_ordered a Ha) as (whole & Happ & Hperm & Hord & Hkeep).
  destruct (CountAndMakeRun comparefn a) as [run rest]. simpl in *.
  subst a. apply List.Forall_app in Ha.
  apply BinaryInsertionSort_ordered; tauto.
Qed.

End ArraySortOrdered.

Lemma Array_sort_ordered {A : Type} (comparefn : A -> A -> number)
    (a : list A) (x y : A) :
  orders comparefn a ->
  before x y (Array_sort comparefn a) -> lessThan comparefn y x = false.
Proof.
  intros [Hasym Hco].
  apply (Array_sort_ordered_keeps comparefn (fun x => In x a) Hasym Hco a).
  apply List.Forall_forall. auto.
Qed.

Lemma Array_sort_keeps {A : Type} (comparefn : A -> A -> number)
    (a : list A) (x y : A) :
  orders comparefn a ->
  before x y a -> lessThan comparefn y x = false ->
  before x y (Array_sort comparefn a).
Proof.
  intros [Hasym Hco].
  apply (Array_sort_ordered_keeps comparefn (fun x => In x a) Hasym Hco a).
  apply List.Forall_forall. auto.
Qed.

Lemma ordersb_orders {A : Type} (comparefn : A -> A -> number) (l : list A) :
  ordersb comparefn l = true -> orders comparefn l.
Proof.
  unfold ordersb. intros Hb.
  assert (Hall : forall x y, In x l -> In y l ->
            lessThan comparefn x y = true ->
            lessThan comparefn y x = false /\
            forall z, In z l ->
              lessThan comparefn x z || lessThan comparefn z y = true).
  { intros x y Hx Hy Hxy.
    rewrite forallb_forall in Hb. specialize (Hb x Hx).
    rewrite forallb_forall in Hb. specialize (Hb y Hy).
    rewrite Hxy in Hb. simpl in Hb. apply andb_true_iff in Hb.
    destruct Hb as [Hn Hz]. split; [apply negb_true_iff; exact Hn|].
    rewrite forallb_forall in Hz. exact Hz. }
  split.
  - intros x y Hx Hy Hxy. apply (Hall x y Hx Hy Hxy).
  - intros x y z Hx Hy Hz Hxy. apply orb_true_iff.
    apply (Hall x y Hx Hy Hxy). exact Hz.
Qed.

(** The sort commutes with a projection of the items. *)
Section ArraySortMap.
Context {A B : Type} (f : A -> B) (comparefn : B -> B -> number).

Lemma extendRun_map (d : bool) (previous : A) (a : list A) :
  extendRun comparefn d (f previous) (map f a)
  = (map f (extendRun (through f comparefn) d previous a).1,
     map f (extendRun (through f comparefn) d previous a).2).
Proof.
  revert previous. induction a as [|c a IH]; intros previous; simpl;
    [reflexivity|].
  change (SortCompare (through f comparefn) c previous)
    with (SortCompare comparefn (f c) (f previous)).
  destruct (if d then _ else _); [reflexivity|].
  rewrite IH.
  destruct (extendRun (through f comparefn) d c a) as [run rest]. reflexivity.
Qed.

Lemma CountAndMakeRun_map (a : list A) :
  CountAndMakeRun comparefn (map f a)
  = (map f (CountAndMakeRun (through f comparefn) a).1,
     map f (CountAndMakeRun (through f comparefn) a).2).
Proof.
  destruct a as [|e0 [|e1 a]]; [reflexivity..|].
  assert (Hlt : lessThan (through f comparefn) e1 e0
                = lessThan comparefn (f e1) (f e0)) by reflexivity.
  change (map f (e0 :: e1 :: a)) with (f e0 :: f e1 :: map f a).
  rewrite (CountAndMakeRun_eq comparefn),
    (CountAndMakeRun_eq (through f comparefn)), Hlt.
  rewrite extendRun_map.
  destruct (extendRun (through f comparefn) _ e1 a) as [run rest].
  destruct (lessThan comparefn (f e1) (f e0)); simpl; [|reflexivity].
  rewrite !map_app, map_rev. reflexivity.
Qed.

Lemma binarySearch_map (pivot : A) (s : list A) (fuel left right : nat) :
  binarySearch comparefn (f pivot) (map f s) fuel left right
  = binarySearch (through f comparefn) pivot s fuel left right.
Proof.
  revert left right. induction fuel as [|fuel IH]; intros left right;
    [reflexivity|].
  rewrite !binarySearch_S.
  destruct (left <? right)%nat; [|reflexivity].
  rewrite list_lookup_fmap.
  destruct (s !! _) as [x|]; [|reflexivity]. simpl.
  change (lessThan (through f comparefn) pivot x)
    with (lessThan comparefn (f pivot) (f x)).
  destruct (lessThan comparefn (f pivot) (f x)); apply IH.
Qed.

Lemma insertPivot_map (sorted : list A) (pivot : A) :
  insertPivot comparefn (map f sorted) (f pivot)
  = map f (insertPivot (through f comparefn) sorted pivot).
Proof.
  unfold insertPivot. rewrite length_map, binarySearch_map.
  rewrite map_app. simpl. rewrite firstn_map, skipn_map. reflexivity.
Qed.

Lemma BinaryInsertionSort_map (run rest : list A) :
  BinaryInsertionSort comparefn (map f run) (map f rest)
  = map f (BinaryInsertionSort (through f comparefn) run rest).
Proof.
  unfold BinaryInsertionSort.
  revert run. induction rest as [|pivot rest IH]; intros run; simpl;
    [reflexivity|].
  rewrite insertPivot_map. apply IH.
Qed.

Lemma Array_sort_map (a : list A) :
  map f (Array_sort (through f comparefn) a) = Array_sort comparefn (map f a).
Proof.
  unfold Array_sort. rewrite CountAndMakeRun_map.
  destruct (CountAndMakeRun (through f comparefn) a) as [run rest]. simpl.
  symmetry. apply BinaryInsertionSort_map.
Qed.

End ArraySortMap.

(** A comparator that puts the items marked [isNull] after the others:
    the marked items end the sorted array, whatever the comparator says of
    the others. *)
Section NullsLast.
Context {A : Type} (comparefn : A -> A -> number) (isNull : A -> bool).
Hypothesis null_never_less :
  forall x y, isNull x = true -> lessThan comparefn x y = false.
Hypothesis less_than_null :
  forall x y, isNull x = false -> isNull y = true ->
    lessThan comparefn x y = true.








End NullsLast.

Section Indexed.
Context {A : Type}.
Implicit Types (l : list A).

Lemma indexedFrom_snd i l : map snd (indexedFrom i l) = l.
Proof.
  revert i. induction l as [|x l IH]; intros i; simpl; [|rewrite IH];
    reflexivity.
Qed.

Lemma indexedFrom_fst i l : map fst (indexedFrom i l) = seq i (length l).
Proof.
  revert i. induction l as [|x l IH]; intros i; simpl; [|rewrite IH];
    reflexivity.
Qed.

Lemma indexedFrom_lookup i l p x :
  l !! p = Some x -> indexedFrom i l !! p = Some ((i + p)%nat, x).
Proof.
  revert i p. induction l as [|y l IH]; intros i p; [discriminate|].
  destruct p as [|p]; simpl.
  - intros [= ->]. rewrite Nat.add_0_r. reflexivity.
  - intros Hp. rewrite (IH (S i) p Hp). f_equal. f_equal. lia.
Qed.

Lemma indexedFrom_In i l k x :
  In (k, x) (indexedFrom i l) -> (i <= k)%nat /\ l !! (k - i)%nat = Some x.
Proof.
  revert i. induction l as [|y l IH]; intros i; simpl; [tauto|].
  intros [[= <- <-]|Hin].
  - rewrite Nat.sub_diag. split; [lia | reflexivity].
  - apply IH in Hin. destruct Hin as [Hle Hl]. split; [lia|].
    replace (k - i)%nat with (S (k - S i)) by lia. exact Hl.
Qed.

End Indexed.

(** ** sortedData *)

Lemma Forall2_fst_snd {A B : Type} (P : A -> B -> Prop) (l : list (A * B)) :
  List.Forall (fun p => P (fst p) (snd p)) l ->
  Forall2 P (map fst l) (map snd l).
Proof.
  induction 1 as [|p l Hp _ IH]; simpl; constructor; assumption.
Qed.

Lemma orders_through {A B : Type} (f : A -> B)
    (comparefn : B -> B -> number) (l : list A) :
  orders comparefn (map f l) -> orders (through f comparefn) l.
Proof.
  intros [Hasym Hco]. split.
  - intros x y Hx Hy. apply (Hasym (f x) (f y)); apply in_map; assumption.
  - intros x y z Hx Hy Hz.
    apply (Hco (f x) (f y) (f z)); apply in_map; assumption.
Qed.

Section SortComparator.
Context `{Host}.

Lemma compareRows_null_left (sort : Sort) (a b : Row) :
  isNullish (get a (sort_key sort)) = true -> compareRows sort a b = Num 1.
Proof. intros Ha. unfold compareRows. rewrite Ha. reflexivity. Qed.

Lemma compareRows_null_right (sort : Sort) (a b : Row) :
  isNullish (get a (sort_key sort)) = false ->
  isNullish (get b (sort_key sort)) = true ->
  compareRows sort a b = Num (-1).
Proof. intros Ha Hb. unfold compareRows. rewrite Ha, Hb. reflexivity. Qed.


Lemma lessThan_null_left (sort : Sort) (a b : Row) :
  isNullish (get a (sort_key sort)) = true ->
  lessThan (compareRows sort) a b = false.
Proof.
  intros Ha. unfold lessThan, SortCompare.
  rewrite compareRows_null_left by exact Ha. reflexivity.
Qed.

Lemma lessThan_null_right (sort : Sort) (a b : Row) :
  isNullish (get a (sort_key sort)) = false ->
  isNullish (get b (sort_key sort)) = true ->
  lessThan (compareRows sort) a b = true.
Proof.
  intros Ha Hb. unfold lessThan, SortCompare.
  rewrite compareRows_null_right by assumption. reflexivity.
Qed.

Lemma lessThan_numbers (k : string) (d : Direction) (a b : Row) (x y : Z) :
  get a k = VNumber (Num x) -> get b k = VNumber (Num y) ->
  lessThan (compareRows {| sort_key := k; direction := d |}) a b
  = match d with
    | asc => x <? y
    | desc => y <? x
    end.
Proof.
  intros Ha Hb. unfold lessThan, SortCompare, compareRows. simpl.
  rewrite Ha, Hb. simpl.
  destruct d; simpl.
  - pose proof (roundDouble_neg (x - y)).
    destruct (Z.ltb_spec (roundDouble (x - y)) 0), (Z.ltb_spec x y);
      try reflexivity; lia.
  - pose proof (roundDouble_neg (y - x)).
    destruct (Z.ltb_spec (roundDouble (y - x)) 0), (Z.ltb_spec y x);
      try reflexivity; lia.
Qed.

(** On a column of numbers, with fields that may be [null] or absent, the
    comparator orders the rows. *)
Lemma compareRows_orders_numbers (k : string) (d : Direction)
    (rows : list Row) :
  (forall row, In row rows ->
     isNullish (get row k) = true \/ exists z, get row k = VNumber (Num z)) ->
  orders (compareRows {| sort_key := k; direction := d |}) rows.
Proof.
  intros Hdom.
  set (s := {| sort_key := k; direction := d |}).
  assert (Hnum : forall r z, get r k = VNumber (Num z) ->
                   isNullish (get r (sort_key s)) = false).
  { intros r z Hr. simpl. rewrite Hr. reflexivity. }
  split.
  - intros x y Hx Hy Hxy.
    destruct (Hdom x Hx) as [Nx|[zx Ex]].
    { rewrite (lessThan_null_left s x y Nx) in Hxy. discriminate. }
    destruct (Hdom y Hy) as [Ny|[zy Ey]].
    { apply (lessThan_null_left s). exact Ny. }
    unfold s in *. rewrite (lessThan_numbers k d x y zx zy Ex Ey) in Hxy.
    rewrite (lessThan_numbers k d y x zy zx Ey Ex).
    destruct d; apply Z.ltb_lt in Hxy; apply Z.ltb_ge; lia.
  - intros x y z Hx Hy Hz Hxy.
    destruct (Hdom x Hx) as [Nx|[zx Ex]].
    { rewrite (lessThan_null_left s x y Nx) in Hxy. discriminate. }
    destruct (Hdom z Hz) as [Nz|[zz Ez]].
    { left. apply (lessThan_null_right s); [eapply Hnum; exact Ex | exact Nz]. }
    destruct (Hdom y Hy) as [Ny|[zy Ey]].
    { right. apply (lessThan_null_right s); [eapply Hnum; exact Ez | exact Ny]. }
    unfold s in *. rewrite (lessThan_numbers k d x y zx zy Ex Ey) in Hxy.
    rewrite (lessThan_numbers k d x z zx zz Ex Ez),
            (lessThan_numbers k d z y zz zy Ez Ey).
    destruct d; apply Z.ltb_lt in Hxy; rewrite !Z.ltb_lt; lia.
Qed.

(** C7, as the code has it: when the comparator orders the rows ("less
    than" under it is a strict weak order on them, as it is when every
    field of the sorted column is a number, [null] or absent:
    [compareRows_orders_numbers]), the sort is stable.  The sorted rows are the input rows taken in an order that is
    a permutation of the input positions, and in that order, of two rows
    that compare equal, the one that comes first in the input comes
    first. *)
Theorem sortedData_stable (sort : Sort) (rows : list Row) :
  orders (compareRows sort) rows ->
  exists order : list nat,
    Permutation order (seq 0 (length rows)) /\
    Forall2 (fun i row => rows !! i = Some row) order
            (sortedData (Some sort) rows) /\
    forall i j a b,
      (i < j)%nat -> rows !! i = Some a -> rows !! j = Some b ->
      SortCompare (compareRows sort) a b = 0 ->
      SortCompare (compareRows sort) b a = 0 ->
      exists p q, (p < q)%nat /\ order !! p = Some i /\ order !! q = Some j.
Proof.
  intros Horders.
  set (tagged := indexedFrom 0 rows).
  set (sortedTagged := Array_sort (through snd (compareRows sort)) tagged).
  assert (Hperm : Permutation sortedTagged tagged)
    by apply Array_sort_Permutation.
  exists (map fst sortedTagged). split; [|split].
  - rewrite <- (indexedFrom_fst 0 rows). apply Permutation_map. exact Hperm.
  - replace (sortedData (Some sort) rows) with (map snd sortedTagged).
    2: { unfold sortedTagged, tagged, sortedData.
         rewrite Array_sort_map, indexedFrom_snd. reflexivity. }
    apply Forall2_fst_snd.
    apply List.Forall_forall. intros [k x] Hin. simpl.
    apply (Permutation_in _ Hperm), indexedFrom_In in Hin.
    destruct Hin as [_ Hk]. rewrite Nat.sub_0_r in Hk. exact Hk.
  - intros i j a b Hlt Ha Hb _ Heq.
    apply before_lookup. change i with (fst (i, a)). change j with (fst (j, b)).
    apply before_map. apply Array_sort_keeps.
    + apply orders_through. unfold tagged. rewrite indexedFrom_snd.
      exact Horders.
    + apply before_lookup. exists i, j. split; [exact Hlt|].
      split; [apply (indexedFrom_lookup 0 rows i a Ha)
             |apply (indexedFrom_lookup 0 rows j b Hb)].
    + change (lessThan (compareRows sort) b a = false).
      unfold lessThan. rewrite Heq. reflexivity.
Qed.


End SortComparator.

Example sortedData_ranked_asc :
  map (fun row => get row "name")
      (sortedData (H := exampleHost)
         (Some {| sort_key := "age"; direction := asc |}) ranked)
  = [VString "Alice"; VString "Bob"; VString "Carol"; VString "Eve";
     VString "Dan"].
Proof. vm_compute. reflexivity. Qed.

Example sortedData_ranked_desc :
  map (fun row => get row "name")
      (sortedData (H := exampleHost)
         (Some {| sort_key := "age"; direction := desc |}) ranked)
  = [VString "Bob"; VString "Carol"; VString "Alice"; VString "Eve";
     VString "Dan"].
Proof. vm_compute. reflexivity. Qed.

Example sortedData_two_nulls :
  let n1 := mkRow [("name", VString "n1"); ("age", VNull)] in
  let n2 := mkRow [("name", VString "n2")] in
  sortedData (H := exampleHost)
    (Some {| sort_key := "age"; direction := asc |}) [n1; n2] = [n1; n2].
Proof. vm_compute. reflexivity. Qed.

Example sortedData_NaN_key :
  map (fun row => get row "k")
      (sortedData (H := exampleHost)
         (Some {| sort_key := "k"; direction := asc |})
         (map (fun n => mkRow [("k", VNumber n)])
              [Num 1; Num 2; Num 5; NaN; Num 9; Num 3]))
  = map VNumber [Num 1; Num 2; Num 3; Num 5; NaN; Num 9].
Proof. vm_compute. reflexivity. Qed.

Lemma sortedData_stable_witness :
  exists order : list nat,
    Permutation order (seq 0 (length ranked)) /\
    Forall2 (fun i row => ranked !! i = Some row) order
      (sortedData (H := exampleHost)
         (Some {| sort_key := "age"; direction := desc |}) ranked) /\
    exists p q, (p < q)%nat /\ order !! p = Some 1%nat /\ order !! q = Some 4%nat.
Proof.
  destruct (sortedData_stable (H := exampleHost)
              {| sort_key := "age"; direction := desc |} ranked)
    as (order & Hperm & Hrows & Hstable).
  { apply ordersb_orders. vm_compute. reflexivity. }
  exists order. split; [exact Hperm|]. split; [exact Hrows|].
  apply (Hstable 1%nat 4%nat
           (mkRow [("name", VString "Bob"); ("age", VNumber (Num 40))])
           (mkRow [("name", VString "Carol"); ("age", VNumber (Num 40))]));
    [lia | reflexivity | reflexivity | vm_compute; reflexivity
    | vm_compute; reflexivity].
Defined.

(** C7 as stated fails: in [mixed] the rows at positions 4 and 6 both have
    the number 9 in the sorted column and compare equal, yet the sort
    places the later one at position 3 and the earlier one at position 6;
    the comparator does not order these rows, the string ["1x"] comparing
    above 10 and below 9. *)
Lemma sortedData_stable_counterexample :
  let sort := {| sort_key := "k"; direction := asc |} in
  let sorted := sortedData (H := exampleHost) (Some sort) mixed in
  exists a b,
    mixed !! 4%nat = Some a /\ mixed !! 6%nat = Some b /\
    SortCompare (compareRows (H := exampleHost) sort) a b = 0 /\
    SortCompare (compareRows (H := exampleHost) sort) b a = 0 /\
    sorted !! 3%nat = Some b /\ sorted !! 6%nat = Some a /\
    map (fun row => get row "id") sorted
    = map (fun i => VNumber (Num i)) [0; 1; 5; 6; 2; 3; 4] /\
    ordersb (compareRows (H := exampleHost) sort) mixed = false.
Proof.
  intros sort sorted.
  exists (mkRow [("id", VNumber (Num 4)); ("k", VNumber (Num 9))]),
         (mkRow [("id", VNumber (Num 6)); ("k", VNumber (Num 9))]).
  repeat split; vm_compute; reflexivity.
Qed.


(** * Further properties of the component *)

(** ** The filter engine as one filter *)

Lemma filter_sublist {A : Type} (f : A -> bool) (l : list A) :
  sublist (List.filter f l) l.
Proof.
  induction l as [|x l IH]; simpl; [constructor|].
  destruct (f x); [apply sublist_skip | apply sublist_cons]; exact IH.
Qed.

Lemma filter_filter_same {A : Type} (f : A -> bool) (l : list A) :
  List.filter f (List.filter f l) = List.filter f l.
Proof.
  induction l as [|x l IH]; simpl; [reflexivity|].
  destruct (f x) eqn:Hx; simpl; [rewrite Hx, IH|]; auto.
Qed.

Lemma filter_and {A : Type} (f g : A -> bool) (l : list A) :
  List.filter g (List.filter f l) = List.filter (fun x => f x && g x) l.
Proof.
  induction l as [|x l IH]; simpl; [reflexivity|].
  destruct (f x); simpl; [destruct (g x); rewrite IH|]; auto.
Qed.

Lemma forallb_Permutation {A : Type} (f : A -> bool) (l l' : list A) :
  Permutation l l' -> forallb f l = forallb f l'.
Proof.
  induction 1 as [|x l l' _ IH|x y l|l l' l'' _ IH1 _ IH2]; simpl.
  - reflexivity.
  - rewrite IH. reflexivity.
  - destruct (f x), (f y); reflexivity.
  - congruence.
Qed.

Section FilterAlgebra.
Context `{Host}.

(** The global search as a test on one row. *)
Lemma globalSearch_filter (search : string) (visibleCols : list string)
    (rows : list Row) :
  exists test : Row -> bool,
    forall l, globalSearch search visibleCols l = List.filter test l.
Proof.
  unfold globalSearch. destruct (negb (String.eqb (trim search) "")).
  - eexists. intros l. reflexivity.
  - exists (fun _ => true). intros l.
    induction l as [|x l IH]; simpl; [|rewrite <- IH]; reflexivity.
Qed.

Lemma filteredData_filter (data : list Row) (search : string)
    (filters : FilterState) (visibleCols : list string)
    (columns : list TableColumn) :
  filteredData data search filters visibleCols columns
  = List.filter
      (fun row => forallb (fun col => columnPasses filters col row) columns)
      (globalSearch search visibleCols data).
Proof.
  unfold filteredData. generalize (globalSearch search visibleCols data).
  induction columns as [|col columns IH] using rev_ind; intros l.
  - simpl. induction l as [|x l IHl]; simpl; [|rewrite <- IHl]; reflexivity.
  - rewrite fold_left_app. simpl.
    rewrite columnFilter_filter, IH, filter_and.
    apply List.filter_ext. intros row.
    rewrite forallb_app. simpl. rewrite andb_true_r. reflexivity.
Qed.

(** X1: the filtered rows are a subsequence of the data: rows are only
    removed, never added, repeated or reordered. *)
Theorem filteredData_sublist (data : list Row) (search : string)
    (filters : FilterState) (visibleCols : list string)
    (columns : list TableColumn) :
  sublist (filteredData data search filters visibleCols columns) data.
Proof.
  rewrite filteredData_filter.
  destruct (globalSearch_filter search visibleCols data) as [test Htest].
  rewrite Htest.
  etransitivity; apply filter_sublist.
Qed.

(** X2: the column clauses are a pure conjunction: the order in which the
    columns are declared does not change the filtered rows. *)
Theorem filteredData_columns_commute (data : list Row) (search : string)
    (filters : FilterState) (visibleCols : list string)
    (columns columns' : list TableColumn) :
  Permutation columns columns' ->
  filteredData data search filters visibleCols columns
  = filteredData data search filters visibleCols columns'.
Proof.
  intros Hperm. rewrite !filteredData_filter.
  apply List.filter_ext. intros row. apply forallb_Permutation. exact Hperm.
Qed.

(** X3: with a blank search text and, for every column, no filter entry
    or an entry whose value is empty, every row survives. *)
Theorem filteredData_identity (data : list Row) (search : string)
    (filters : FilterState) (visibleCols : list string)
    (columns : list TableColumn) :
  trim search = "" ->
  (forall col, In col columns ->
     fv_truthy (from_option value FVUndefined (filters !! key col)) = false) ->
  filteredData data search filters visibleCols columns = data.
Proof.
  intros Hs Hunset. unfold filteredData.
  rewrite globalSearch_blank by exact Hs.
  induction columns as [|col columns IH] using rev_ind; [reflexivity|].
  rewrite fold_left_app. simpl.
  rewrite IH.
  - specialize (Hunset col). unfold columnFilter.
    destruct (filters !! key col) as [f|]; [|reflexivity].
    simpl in Hunset. rewrite Hunset; [reflexivity|].
    apply in_or_app. right. left. reflexivity.
  - intros c Hc. apply Hunset. apply in_or_app. left. exact Hc.
Qed.

(** X4: filtering is idempotent: filtering the filtered rows again under
    the same view state removes nothing more. *)
Theorem filteredData_idempotent (data : list Row) (search : string)
    (filters : FilterState) (visibleCols : list string)
    (columns : list TableColumn) :
  filteredData (filteredData data search filters visibleCols columns)
    search filters visibleCols columns
  = filteredData data search filters visibleCols columns.
Proof.
  rewrite !filteredData_filter.
  destruct (globalSearch_filter search visibleCols data) as [test Htest].
  rewrite !Htest.
  set (passes := fun row : Row =>
                   forallb (fun col => columnPasses filters col row) columns).
  rewrite (filter_and test passes data).
  rewrite (filter_and test passes). apply filter_filter_same.
Qed.

(** X5: when no column is visible, a search text that is not blank
    removes every row. *)
Theorem filteredData_search_no_visible (data : list Row) (search : string)
    (filters : FilterState) (columns : list TableColumn) :
  trim search <> "" ->
  filteredData data search filters [] columns = [].
Proof.
  intros Hs. rewrite filteredData_filter. unfold globalSearch.
  destruct (String.eqb_spec (trim search) "") as [He|_]; [contradiction|].
  simpl. induction data as [|row data IH]; simpl; [reflexivity | exact IH].
Qed.

End FilterAlgebra.

(** ** Integer, text and dropdown clauses *)

Lemma num_eq_Num (a b : number) :
  num_eq a b = true <-> exists x y, a = Num x /\ b = Num y /\ x = y.
Proof.
  destruct a as [|x], b as [|y]; simpl;
    try (split; [discriminate | intros (? & ? & ? & ? & ?); discriminate]).
  rewrite Z.eqb_eq. split.
  - intros He. exists x, y. auto.
  - intros (x' & y' & Hx & Hy & He). congruence.
Qed.

Section ClauseKinds.
Context `{Host}.

Lemma columnFilter_integer (filters : FilterState) (rows : list Row)
    (col : TableColumn) (filter : FilterEntry)
    (test : number -> number -> bool) :
  filters !! key col = Some filter -> type col = Some TInteger ->
  fv_truthy (value filter) = true ->
  (op filter = "=" /\ test = num_eq) \/ (op filter = "<" /\ test = num_lt) \/
  (op filter = ">" /\ test = num_gt) ->
  columnFilter filters rows col
  = List.filter (fun row => test (Number_ (get row (key col)))
                                 (fv_Number (value filter))) rows.
Proof.
  intros Hf Ht Hv Hop. unfold columnFilter. rewrite Hf, Hv, Ht. simpl.
  destruct Hop as [[-> ->]|[[-> ->]|[-> ->]]]; reflexivity.
Qed.

(** X6: on a column of type [integer], under an entry with a non-empty
    value, operator [=], [<] or [>] keeps exactly the rows whose field
    converts to a number that is equal to, less than, greater than the
    number the filter value converts to; any other operator removes no
    row. *)
Theorem columnFilter_integer_clause (filters : FilterState) (rows : list Row)
    (col : TableColumn) (filter : FilterEntry) (row : Row) :
  filters !! key col = Some filter -> type col = Some TInteger ->
  fv_truthy (value filter) = true ->
  (op filter = "=" ->
   (In row (columnFilter filters rows col) <->
    In row rows /\ exists x y, Number_ (get row (key col)) = Num x /\
      fv_Number (value filter) = Num y /\ x = y)) /\
  (op filter = "<" ->
   (In row (columnFilter filters rows col) <->
    In row rows /\ exists x y, Number_ (get row (key col)) = Num x /\
      fv_Number (value filter) = Num y /\ x < y)) /\
  (op filter = ">" ->
   (In row (columnFilter filters rows col) <->
    In row rows /\ exists x y, Number_ (get row (key col)) = Num x /\
      fv_Number (value filter) = Num y /\ y < x)) /\
  (op filter <> "=" -> op filter <> "<" -> op filter <> ">" ->
   columnFilter filters rows col = rows).
Proof.
  intros Hf Ht Hv. split; [|split; [|split]].
  - intros Ho.
    rewrite (columnFilter_integer filters rows col filter num_eq) by auto.
    rewrite List.filter_In, num_eq_Num. reflexivity.
  - intros Ho.
    rewrite (columnFilter_integer filters rows col filter num_lt) by auto.
    rewrite List.filter_In, num_lt_Num. reflexivity.
  - intros Ho.
    rewrite (columnFilter_integer filters rows col filter num_gt) by auto 6.
    rewrite List.filter_In. unfold num_gt. rewrite num_lt_Num.
    split; intros [Hin (a & b & Ha & Hb & Hlt)]; (split; [exact Hin|]);
      exists b, a; auto.
  - intros Hne Hnl Hng. unfold columnFilter. rewrite Hf, Hv, Ht. simpl.
    destruct (String.eqb_spec (op filter) "=") as [?|_]; [contradiction|].
    destruct (String.eqb_spec (op filter) "<") as [?|_]; [contradiction|].
    destruct (String.eqb_spec (op filter) ">") as [?|_]; [contradiction|].
    reflexivity.
Qed.

Lemma filter_none {A : Type} (f : A -> bool) (l : list A) :
  (forall x, f x = false) -> List.filter f l = [].
Proof.
  intros Hf. induction l as [|x l IH]; simpl; [reflexivity|].
  rewrite Hf. exact IH.
Qed.

(** X7: a filter value that does not parse removes every row: an integer
    filter whose value converts to [NaN], and a date filter one of whose
    required bounds is an invalid date, keep no row at all. *)
Theorem columnFilter_unparseable (filters : FilterState) (rows : list Row)
    (col : TableColumn) (filter : FilterEntry) :
  filters !! key col = Some filter ->
  (type col = Some TInteger -> fv_truthy (value filter) = true ->
   op filter = "=" \/ op filter = "<" \/ op filter = ">" ->
   fv_Number (value filter) = NaN ->
   columnFilter filters rows col = []) /\
  (type col = Some TDate ->
   forall v, value filter = FVString v -> v <> "" ->
   (op filter = "before" \/ op filter = "after" ->
    NewDate (VString v) = NaN -> columnFilter filters rows col = []) /\
   (forall v2, op filter = "range" -> value2 filter = Some v2 -> v2 <> "" ->
    NewDate (VString v) = NaN \/ NewDate (VString v2) = NaN ->
    columnFilter filters rows col = [])).
Proof.
  intros Hf. split.
  - intros Ht Hv Hop Hnan.
    destruct Hop as [Ho|[Ho|Ho]].
    + rewrite (columnFilter_integer filters rows col filter num_eq) by auto.
      apply filter_none. intros row. rewrite Hnan.
      destruct (Number_ _); reflexivity.
    + rewrite (columnFilter_integer filters rows col filter num_lt) by auto.
      apply filter_none. intros row. rewrite Hnan.
      destruct (Number_ _); reflexivity.
    + rewrite (columnFilter_integer filters rows col filter num_gt) by auto 6.
      apply filter_none. intros row. rewrite Hnan. reflexivity.
  - intros Ht v Hv Hne. split.
    + intros [Ho|Ho] Hnan.
      * rewrite (columnFilter_before filters rows col filter v) by assumption.
        apply filter_none. intros row. rewrite Hnan.
        destruct (rowDate col row) as [[|d]|]; reflexivity.
      * rewrite (columnFilter_after filters rows col filter v) by assumption.
        apply filter_none. intros row. rewrite Hnan.
        destruct (rowDate col row) as [[|d]|]; reflexivity.
    + intros v2 Ho Hv2 Hne2 Hnan.
      rewrite (columnFilter_range filters rows col filter v v2) by assumption.
      apply filter_none. intros row.
      destruct (rowDate col row) as [d|]; [|reflexivity].
      unfold num_ge.
      destruct Hnan as [-> | ->]; [reflexivity|].
      replace (num_le d NaN) with false by (destruct d; reflexivity).
      apply andb_false_r.
Qed.

(** X8: on a column that is neither [date] nor [integer] nor a dropdown, a
    non-empty text value keeps exactly the rows whose stringified field
    contains it, letter case ignored on both sides. *)
Theorem columnFilter_text_clause (filters : FilterState) (rows : list Row)
    (col : TableColumn) (filter : FilterEntry) (s : string) (row : Row) :
  filters !! key col = Some filter ->
  type col <> Some TDate -> type col <> Some TInteger ->
  filterType col <> Some FDropdown ->
  value filter = FVString s -> s <> "" ->
  In row (columnFilter filters rows col) <->
  In row rows /\
  exists pre post,
    toLowerCase (String_ (get row (key col)))
    = String.append pre (String.append (toLowerCase s) post).
Proof.
  intros Hf Hd Hi Hft Hv Hs.
  rewrite (columnFilter_contains filters rows col filter s) by assumption.
  rewrite List.filter_In, includes_spec. reflexivity.
Qed.

(** X9: on a column filtered as a dropdown (no [date] or [integer] type),
    a non-empty array value keeps exactly the rows whose stringified field
    is one of its members, and a non-empty plain string value keeps
    exactly the rows whose stringified field equals it, case and all. *)
Theorem columnFilter_dropdown_clause (filters : FilterState)
    (rows : list Row) (col : TableColumn) (filter : FilterEntry) (row : Row) :
  filters !! key col = Some filter ->
  type col <> Some TDate -> type col <> Some TInteger ->
  filterType col = Some FDropdown ->
  (forall sel, value filter = FVArray sel -> sel <> [] ->
   (In row (columnFilter filters rows col) <->
    In row rows /\ In (String_ (get row (key col))) sel)) /\
  (forall s, value filter = FVString s -> s <> "" ->
   (In row (columnFilter filters rows col) <->
    In row rows /\ String_ (get row (key col)) = s)).
Proof.
  intros Hf Hd Hi Hft. split.
  - intros sel Hv Hsel.
    rewrite (columnFilter_dropdown filters rows col filter); try assumption.
    + rewrite Hv, List.filter_In, Array_includes_In. reflexivity.
    + rewrite Hv. exact Hsel.
  - intros s Hv Hs.
    assert (Hsel : getDropdownFilterValue (value filter) = [s]).
    { rewrite Hv. unfold getDropdownFilterValue. simpl.
      rewrite truthy_nonempty by exact Hs. reflexivity. }
    rewrite (columnFilter_dropdown filters rows col filter); try assumption.
    + rewrite Hsel, List.filter_In, Array_includes_In. simpl.
      split; intros [Hin Heq]; (split; [exact Hin|]).
      * destruct Heq as [Heq|[]]. symmetry. exact Heq.
      * left. symmetry. exact Heq.
    + rewrite Hsel. discriminate.
Qed.

End ClauseKinds.

(** ** The date clause on a column of type date *)

(** X30: on a column of type [date], with [op] [range] and both bounds set
    a row passes iff its field is truthy and the date parsed from it lies
    between the parsed bounds, both ends included; with [before] iff that
    date is strictly earlier than the bound; with [after] iff it is
    strictly later; and when a required bound is missing (no [value], or
    [range] without [value2]) the clause removes no row. *)
Theorem columnFilter_date_clause `{Host} (filters : FilterState)
    (rows : list Row) (col : TableColumn) (filter : FilterEntry) (row : Row) :
  filters !! key col = Some filter -> type col = Some TDate ->
  (forall v v2, op filter = "range" -> value filter = FVString v -> v <> "" ->
     value2 filter = Some v2 -> v2 <> "" ->
     (In row (columnFilter filters rows col) <->
      In row rows /\
      exists d lo hi,
        truthy (get row (key col)) = true /\
        NewDate (get row (key col)) = Num d /\
        NewDate (VString v) = Num lo /\ NewDate (VString v2) = Num hi /\
        lo <= d <= hi)) /\
  (forall v, op filter = "before" -> value filter = FVString v -> v <> "" ->
     (In row (columnFilter filters rows col) <->
      In row rows /\
      exists d hi,
        truthy (get row (key col)) = true /\
        NewDate (get row (key col)) = Num d /\
        NewDate (VString v) = Num hi /\ d < hi)) /\
  (forall v, op filter = "after" -> value filter = FVString v -> v <> "" ->
     (In row (columnFilter filters rows col) <->
      In row rows /\
      exists d lo,
        truthy (get row (key col)) = true /\
        NewDate (get row (key col)) = Num d /\
        NewDate (VString v) = Num lo /\ lo < d)) /\
  (fv_truthy (value filter) = false \/
   (op filter = "range" /\ value2_set (value2 filter) = false) ->
   columnFilter filters rows col = rows).
Proof.
  intros Hf Ht. split; [|split; [|split]].
  - intros v v2 Ho Hv Hne Hv2 Hne2.
    rewrite (columnFilter_range filters rows col filter v v2) by assumption.
    rewrite List.filter_In. split.
    + intros [Hin Hp]. split; [exact Hin|].
      destruct (rowDate col row) as [d|] eqn:Hrd; [|discriminate].
      apply rowDate_Some in Hrd. destruct Hrd as [Htr Hnd].
      apply andb_true_iff in Hp. destruct Hp as [Hge Hle].
      apply num_le_Num in Hge. apply num_le_Num in Hle.
      destruct Hge as (lo & d1 & Hlo & Hd1 & Hlod).
      destruct Hle as (d2 & hi & Hd2 & Hhi & Hdhi).
      exists d1, lo, hi. rewrite Hd1 in Hnd, Hd2. injection Hd2 as <-.
      repeat split; assumption.
    + intros [Hin (d & lo & hi & Htr & Hd & Hlo & Hhi & Hle1 & Hle2)].
      split; [exact Hin|].
      rewrite (proj2 (rowDate_Some col row (Num d)) (conj Htr Hd)), Hlo, Hhi.
      simpl. apply andb_true_iff. split; apply Z.leb_le; assumption.
  - intros v Ho Hv Hne.
    rewrite (columnFilter_before filters rows col filter v) by assumption.
    rewrite List.filter_In. split.
    + intros [Hin Hp]. split; [exact Hin|].
      destruct (rowDate col row) as [d|] eqn:Hrd; [|discriminate].
      apply rowDate_Some in Hrd. destruct Hrd as [Htr Hnd].
      apply num_lt_Num in Hp. destruct Hp as (d1 & hi & Hd1 & Hhi & Hlt).
      exists d1, hi. rewrite Hd1 in Hnd. repeat split; assumption.
    + intros [Hin (d & hi & Htr & Hd & Hhi & Hlt)].
      split; [exact Hin|].
      rewrite (proj2 (rowDate_Some col row (Num d)) (conj Htr Hd)), Hhi.
      simpl. apply Z.ltb_lt. exact Hlt.
  - intros v Ho Hv Hne.
    rewrite (columnFilter_after filters rows col filter v) by assumption.
    rewrite List.filter_In. split.
    + intros [Hin Hp]. split; [exact Hin|].
      destruct (rowDate col row) as [d|] eqn:Hrd; [|discriminate].
      apply rowDate_Some in Hrd. destruct Hrd as [Htr Hnd].
      apply num_lt_Num in Hp. destruct Hp as (lo & d1 & Hlo & Hd1 & Hlt).
      exists d1, lo. rewrite Hd1 in Hnd. repeat split; assumption.
    + intros [Hin (d & lo & Htr & Hd & Hlo & Hlt)].
      split; [exact Hin|].
      rewrite (proj2 (rowDate_Some col row (Num d)) (conj Htr Hd)), Hlo.
      simpl. apply Z.ltb_lt. exact Hlt.
  - intros [Hv|[Ho Hv2]].
    + apply (columnFilter_unset filters rows col filter); assumption.
    + apply (columnFilter_range_unbounded filters rows col filter); assumption.
Qed.

(** ** Sets of keys *)

Lemma Set_has_In (s : list string) (k : string) :
  Set_has s k = true <-> In k s.
Proof. apply Array_includes_In. Qed.

Lemma Set_has_not_In (s : list string) (k : string) :
  Set_has s k = false <-> ~ In k s.
Proof.
  rewrite <- Set_has_In. destruct (Set_has s k); split; congruence.
Qed.

Lemma Set_add_In (k x : string) (s : list string) :
  In x (Set_add k s) <-> x = k \/ In x s.
Proof.
  unfold Set_add. destruct (Set_has s k) eqn:Hk.
  - apply Set_has_In in Hk. split; [tauto|]. intros [->|Hx]; assumption.
  - rewrite in_app_iff. simpl. intuition.
Qed.

Lemma Set_add_NoDup (k : string) (s : list string) :
  List.NoDup s -> List.NoDup (Set_add k s).
Proof.
  intros Hs. unfold Set_add. destruct (Set_has s k) eqn:Hk; [exact Hs|].
  apply Set_has_not_In in Hk.
  apply List.NoDup_app; [exact Hs | repeat constructor; simpl; tauto |].
  intros x Hx [<-|[]]. contradiction.
Qed.

Lemma Set_delete_In (k x : string) (s : list string) :
  In x (Set_delete k s) <-> x <> k /\ In x s.
Proof.
  unfold Set_delete. rewrite List.filter_In.
  destruct (String.eqb_spec x k); simpl; intuition congruence.
Qed.

Lemma Set_delete_NoDup (k : string) (s : list string) :
  List.NoDup s -> List.NoDup (Set_delete k s).
Proof. apply List.NoDup_filter. Qed.

Lemma Set_fold_In (a acc : list string) (x : string) :
  In x (fold_left (fun s k => Set_add k s) a acc) <-> In x acc \/ In x a.
Proof.
  revert acc. induction a as [|k a IH]; intros acc; simpl; [tauto|].
  rewrite IH, Set_add_In. intuition.
Qed.

Lemma Set_fold_NoDup (a acc : list string) :
  List.NoDup acc -> List.NoDup (fold_left (fun s k => Set_add k s) a acc).
Proof.
  revert acc. induction a as [|k a IH]; intros acc Hacc; simpl; [exact Hacc|].
  apply IH, Set_add_NoDup, Hacc.
Qed.

Lemma Set_from_In (a : list string) (x : string) :
  In x (Set_from a) <-> In x a.
Proof. unfold Set_from. rewrite Set_fold_In. simpl. tauto. Qed.

Lemma Set_from_NoDup (a : list string) : List.NoDup (Set_from a).
Proof. apply Set_fold_NoDup. constructor. Qed.

(** A set that already has no repetition is the array itself. *)
Lemma Set_fold_NoDup_id (a acc : list string) :
  List.NoDup (acc ++ a) ->
  fold_left (fun s k => Set_add k s) a acc = acc ++ a.
Proof.
  revert acc. induction a as [|k a IH]; intros acc Hnd; simpl.
  - rewrite app_nil_r. reflexivity.
  - assert (Hk : Set_has acc k = false).
    { apply Set_has_not_In. intros Hin.
      apply List.NoDup_remove_2 in Hnd. apply Hnd.
      apply in_or_app. left. exact Hin. }
    unfold Set_add at 2. rewrite Hk.
    rewrite IH; rewrite <- app_assoc; [reflexivity | exact Hnd].
Qed.

Lemma Set_from_NoDup_id (a : list string) : List.NoDup a -> Set_from a = a.
Proof. intros Hnd. apply (Set_fold_NoDup_id a []). exact Hnd. Qed.

(** A list without repetition whose members all lie in another is no
    longer than it; with equal lengths the other's members lie in it. *)
Lemma NoDup_incl_full (s keys : list string) :
  List.NoDup s -> List.incl s keys -> length s = length keys ->
  List.incl keys s.
Proof.
  intros Hs Hincl Hlen.
  apply List.NoDup_length_incl; [exact Hs | lia | exact Hincl].
Qed.

(** ** The order of strings by code unit *)

Lemma ascii_compare_Lt_trans (a b c : ascii) :
  Ascii.compare a b = Lt -> Ascii.compare b c = Lt -> Ascii.compare a c = Lt.
Proof.
  unfold Ascii.compare. rewrite !N.compare_lt_iff. lia.
Qed.

Lemma string_compare_Lt_trans (x y z : string) :
  String.compare x y = Lt -> String.compare y z = Lt ->
  String.compare x z = Lt.
Proof.
  revert y z. induction x as [|a x IH]; intros [|b y] [|c z]; simpl;
    try congruence.
  destruct (Ascii.compare a b) eqn:Hab; try discriminate;
    destruct (Ascii.compare b c) eqn:Hbc; try discriminate; intros Hxy Hyz.
  - apply Ascii.compare_eq_iff in Hab, Hbc. subst.
    replace (Ascii.compare c c) with Eq; [eapply IH; eassumption|].
    symmetry. unfold Ascii.compare. apply N.compare_refl.
  - apply Ascii.compare_eq_iff in Hab. subst. rewrite Hbc. reflexivity.
  - apply Ascii.compare_eq_iff in Hbc. subst. rewrite Hab. reflexivity.
  - rewrite (ascii_compare_Lt_trans a b c Hab Hbc). reflexivity.
Qed.

Lemma string_compare_refl (x : string) : String.compare x x = Eq.
Proof.
  induction x as [|a x IH]; simpl; [reflexivity|].
  replace (Ascii.compare a a) with Eq; [exact IH|].
  symmetry. unfold Ascii.compare. apply N.compare_refl.
Qed.

Lemma defaultCompare_lessThan (x y : string) :
  lessThan defaultCompare x y = true <-> String.compare x y = Lt.
Proof.
  unfold lessThan, SortCompare, defaultCompare, codeUnitCompare.
  destruct (String.compare x y); cbv; split; intros; congruence.
Qed.

Lemma defaultCompare_orders (l : list string) : orders defaultCompare l.
Proof.
  split.
  - intros x y _ _ Hxy. apply defaultCompare_lessThan in Hxy.
    destruct (lessThan defaultCompare y x) eqn:Hyx; [|reflexivity].
    apply defaultCompare_lessThan in Hyx.
    rewrite (String.compare_antisym x y), Hyx in Hxy. discriminate.
  - intros x y z _ _ _ Hxy. rewrite !defaultCompare_lessThan in *.
    destruct (String.compare x z) eqn:Hxz; [right|left; reflexivity|right].
    + apply String.compare_eq_iff in Hxz. subst. exact Hxy.
    + apply (string_compare_Lt_trans z x y); [|exact Hxy].
      rewrite (String.compare_antisym z x), Hxz. reflexivity.
Qed.

(** ** The options of a dropdown filter *)

Lemma NoDup_lookup_ne {A : Type} (l : list A) (p q : nat) (x y : A) :
  List.NoDup l -> l !! p = Some x -> l !! q = Some y -> p <> q -> x <> y.
Proof.
  intros Hnd Hp Hq Hne ->. apply NoDup_ListNoDup in Hnd.
  apply Hne. eapply NoDup_lookup; eassumption.
Qed.

(** X10: the computed options of a column are the distinct non-empty
    stringified values its field takes in the data (a missing field counts
    as ["undefined"]), each once, in ascending code-unit order. *)
Theorem uniqueValues_spec (data : list Row) (k : string) :
  List.NoDup (uniqueValues data k) /\
  (forall v, In v (uniqueValues data k) <->
     v <> "" /\ exists row, In row data /\ String_ (get row k) = v) /\
  (forall p q x y, (p < q)%nat ->
     uniqueValues data k !! p = Some x -> uniqueValues data k !! q = Some y ->
     String.compare x y = Lt) /\
  ((exists row, In row data /\ row !! k = None) ->
   In "undefined" (uniqueValues data k)).
Proof.
  unfold uniqueValues.
  set (values := List.filter (fun v => negb (String.eqb v ""))
                   (Set_from (map (fun row => String_ (get row k)) data))).
  assert (Hperm : Permutation (Array_sort defaultCompare values) values)
    by apply Array_sort_Permutation.
  assert (Hnd : List.NoDup (Array_sort defaultCompare values)).
  { eapply Permutation_NoDup; [symmetry; exact Hperm|].
    apply List.NoDup_filter, Set_from_NoDup. }
  assert (Hmem : forall v, In v (Array_sort defaultCompare values) <->
            v <> "" /\ exists row, In row data /\ String_ (get row k) = v).
  { intros v. split.
    - intros Hin. apply (Permutation_in _ Hperm) in Hin.
      apply List.filter_In in Hin. destruct Hin as [Hin Hne].
      apply Set_from_In, in_map_iff in Hin.
      destruct Hin as (row & Heq & Hrow). split; [|exists row; auto].
      intros ->. discriminate.
    - intros [Hne (row & Hrow & Heq)].
      apply (Permutation_in _ (Permutation_sym Hperm)).
      apply List.filter_In. split.
      + apply Set_from_In, in_map_iff. exists row. auto.
      + destruct (String.eqb_spec v ""); [contradiction | reflexivity]. }
  split; [exact Hnd|]. split; [exact Hmem|]. split.
  - intros p q x y Hlt Hp Hq.
    assert (Hle : lessThan defaultCompare y x = false).
    { apply (Array_sort_ordered defaultCompare values);
        [apply defaultCompare_orders|].
      apply before_lookup. exists p, q. auto. }
    destruct (String.compare x y) eqn:Hc; [|reflexivity|].
    2: { rewrite (proj2 (defaultCompare_lessThan y x)) in Hle; [discriminate|].
         rewrite (String.compare_antisym y x), Hc. reflexivity. }
    apply String.compare_eq_iff in Hc. exfalso.
    apply (NoDup_lookup_ne _ p q x y Hnd Hp Hq); [lia | exact Hc].
  - intros (row & Hrow & Hnone). apply Hmem. split; [discriminate|].
    exists row. split; [exact Hrow|]. rewrite (get_missing row k Hnone).
    reflexivity.
Qed.

Lemma columnDropdownOptions_lookup (columns : list TableColumn)
    (data : list Row) (k : string) :
  columnDropdownOptions columns data !! k
  = if existsb (fun col => String.eqb (key col) k
                  && (bool_decide (filterType col = Some FDropdown)
                      && negb (bool_decide (is_Some (filterOptions col)))))
               columns
    then Some (uniqueValues data k) else None.
Proof.
  unfold columnDropdownOptions.
  induction columns as [|col columns IH] using rev_ind; [reflexivity|].
  rewrite fold_left_app, existsb_app. simpl. rewrite orb_false_r.
  destruct (bool_decide (filterType col = Some FDropdown)
            && negb (bool_decide (is_Some (filterOptions col)))).
  - destruct (String.eqb_spec (key col) k) as [->|Hne]; simpl.
    + rewrite lookup_insert_eq, orb_true_r. reflexivity.
    + rewrite lookup_insert_ne by exact Hne. rewrite orb_false_r. exact IH.
  - rewrite andb_false_r, orb_false_r. exact IH.
Qed.

(** X11: what the filter row offers in the dropdown of a declared column:
    the [filterOptions] of the column as they are when it has some (even
    none at all), otherwise the values computed from the data; and nothing
    when the column is not a dropdown. *)
Theorem dropdownOptions_of_column (columns : list TableColumn)
    (data : list Row) (col : TableColumn) :
  In col columns ->
  dropdownOptions col (columnDropdownOptions columns data)
  = match filterType col, filterOptions col with
    | Some FDropdown, Some l => l
    | Some FDropdown, None => uniqueValues data (key col)
    | _, _ => []
    end.
Proof.
  intros Hin. unfold dropdownOptions.
  destruct (filterType col) as [[| | |]|] eqn:Hft; try reflexivity.
  simpl.
  destruct (filterOptions col) as [l|] eqn:Hfo; [reflexivity|].
  rewrite columnDropdownOptions_lookup.
  replace (existsb _ columns) with true; [reflexivity|].
  symmetry. apply existsb_exists. exists col. split; [exact Hin|].
  rewrite String.eqb_refl, Hft, Hfo. reflexivity.
Qed.

(** ** The filter controls and what they store *)

Section FilterControls.
Context `{Host}.

(** X12: a dropdown column for which there is no option to offer gets the
    plain text input; what is typed there is stored as a text entry, which
    the engine, on a column without [date] or [integer] type, still treats
    as a dropdown selection: it keeps the rows whose stringified field
    equals the text exactly. *)
Theorem filterControl_dropdown_without_options (col : TableColumn)
    (options : gmap string (list string)) (filters : FilterState)
    (rows : list Row) (v : string) (row : Row) :
  filterable col <> Some false -> filterType col = Some FDropdown ->
  dropdownOptions col options = [] ->
  filterControl col options filters = TextControl /\
  (type col <> Some TDate -> type col <> Some TInteger -> v <> "" ->
   (In row (columnFilter (onTextChange (key col) v filters) rows col) <->
    In row rows /\ String_ (get row (key col)) = v)).
Proof.
  intros Hfa Hft Hopts. split.
  - unfold filterControl, filterTypeOf. rewrite Hft, Hopts.
    rewrite bool_decide_eq_false_2 by exact Hfa. reflexivity.
  - intros Hd Hi Hv.
    set (filter := {| op := "contains"; value := FVString v; value2 := None |}).
    assert (Hf : onTextChange (key col) v filters !! key col = Some filter)
      by apply lookup_insert_eq.
    assert (Hsel : getDropdownFilterValue (value filter) = [v]).
    { unfold getDropdownFilterValue. simpl.
      rewrite truthy_nonempty by exact Hv. reflexivity. }
    rewrite (columnFilter_dropdown _ rows col filter Hf Hd Hi Hft).
    + rewrite Hsel, List.filter_In, Array_includes_In. simpl.
      split; intros [Hin Heq]; (split; [exact Hin|]).
      * destruct Heq as [Heq|[]]. symmetry. exact Heq.
      * left. symmetry. exact Heq.
    + rewrite Hsel. discriminate.
Qed.

(** X13: what the dropdown stores comes back as its value, and it filters
    by membership: after a change to the selection [selected], the control
    is given [selected] again; on a column filtered as a dropdown the rows
    kept are all of them when [selected] is empty and otherwise those
    whose stringified field is selected; the entries of the other columns
    are untouched. *)
Theorem onDropdownChange_round_trip (col : TableColumn)
    (selected : list string) (prev : FilterState) (rows : list Row)
    (row : Row) :
  let filters := onDropdownChange (key col) selected prev in
  getDropdownFilterValue (from_option value FVUndefined (filters !! key col))
  = selected /\
  (forall k, k <> key col -> filters !! k = prev !! k) /\
  (type col <> Some TDate -> type col <> Some TInteger ->
   filterType col = Some FDropdown ->
   (In row (columnFilter filters rows col) <->
    In row rows /\
    (selected = [] \/ In (String_ (get row (key col))) selected))).
Proof.
  intros filters. subst filters. unfold onDropdownChange.
  split; [rewrite lookup_insert_eq; reflexivity|].
  split; [intros k Hk; apply lookup_insert_ne; congruence|].
  intros Hd Hi Hft.
  set (filter := {| op := "in"; value := FVArray selected; value2 := None |}).
  destruct selected as [|s sel].
  - unfold columnFilter. rewrite lookup_insert_eq. simpl.
    rewrite !bool_decide_eq_false_2 by assumption.
    rewrite bool_decide_eq_true_2 by assumption. simpl. tauto.
  - rewrite (columnFilter_dropdown _ rows col filter);
      try assumption; [|apply lookup_insert_eq|discriminate].
    rewrite List.filter_In, Array_includes_In.
    change (getDropdownFilterValue (value filter)) with (s :: sel).
    split; intros [Hin Hm]; (split; [exact Hin|]).
    + right. exact Hm.
    + destruct Hm as [Hm|Hm]; [discriminate | exact Hm].
Qed.

(** X14: changing the operator of a date filter clears both dates, so the
    column stops filtering until a date is entered again. *)
Theorem onDateOpChange_clears (col : TableColumn) (newOp : string)
    (prev : FilterState) (rows : list Row) :
  columnFilter (onDateOpChange (key col) newOp prev) rows col = rows /\
  (forall k, k <> key col ->
     onDateOpChange (key col) newOp prev !! k = prev !! k).
Proof.
  split.
  - apply (columnFilter_unset _ rows col
             {| op := newOp; value := FVString ""; value2 := Some "" |});
      [apply lookup_insert_eq | reflexivity].
  - intros k Hk. apply lookup_insert_ne. congruence.
Qed.


(** X16: emptying the text of a text, integer or date control turns the
    clause of its column off. *)
Theorem emptied_control_filters_nothing (col : TableColumn)
    (filters prev : FilterState) (rows : list Row) :
  columnFilter (onTextChange (key col) "" prev) rows col = rows /\
  columnFilter (onIntegerValueChange filters (key col) "" prev) rows col = rows
  /\
  columnFilter (onDateValueChange filters (key col) "" prev) rows col = rows.
Proof.
  repeat split;
    (eapply columnFilter_unset; [apply lookup_insert_eq | reflexivity]).
Qed.

End FilterControls.

(** ** The column chooser *)

Lemma initialVisibleCols_NoDup (columns : list TableColumn)
    (defaultHiddenColumns : list string) :
  List.NoDup (initialVisibleCols columns defaultHiddenColumns).
Proof.
  unfold initialVisibleCols.
  destruct (length defaultHiddenColumns =? 0)%nat; apply Set_from_NoDup.
Qed.

Lemma initialVisibleCols_In (columns : list TableColumn)
    (defaultHiddenColumns : list string) (k : string) :
  In k (initialVisibleCols columns defaultHiddenColumns) <->
  In k (map key columns) /\ ~ In k defaultHiddenColumns.
Proof.
  unfold initialVisibleCols.
  destruct (length defaultHiddenColumns =? 0)%nat eqn:Hlen.
  - apply Nat.eqb_eq, length_zero_iff_nil in Hlen. subst.
    rewrite Set_from_In. simpl. tauto.
  - rewrite Set_from_In, List.filter_In, negb_true_iff.
    rewrite <- (Array_includes_In defaultHiddenColumns k).
    destruct (Array_includes defaultHiddenColumns k); intuition congruence.
Qed.

(** X17: initially the visible keys are, each once, the declared keys that
    are not in the default-hidden list. *)
Theorem initialVisibleCols_spec (columns : list TableColumn)
    (defaultHiddenColumns : list string) :
  List.NoDup (initialVisibleCols columns defaultHiddenColumns) /\
  (forall k, In k (initialVisibleCols columns defaultHiddenColumns) <->
     In k (map key columns) /\ ~ In k defaultHiddenColumns).
Proof.
  split; [apply initialVisibleCols_NoDup|].
  intros k. apply initialVisibleCols_In.
Qed.

(** X18: toggling a key flips its visibility and no other: afterwards the
    key is visible exactly when it was not, every other key is visible
    exactly when it was, no key is listed twice, and toggling the key again
    gives back the same visible keys. *)
Theorem handleColToggle_flips (k : string) (prev : list string) :
  List.NoDup prev ->
  List.NoDup (handleColToggle k prev) /\
  (In k (handleColToggle k prev) <-> ~ In k prev) /\
  (forall k', k' <> k -> (In k' (handleColToggle k prev) <-> In k' prev)) /\
  (forall k', In k' (handleColToggle k (handleColToggle k prev)) <-> In k' prev).
Proof.
  intros Hnd.
  assert (Hmem : forall s k', In k' (handleColToggle k s) <->
                   (k' = k /\ ~ In k s) \/ (k' <> k /\ In k' s)).
  { intros s k'. unfold handleColToggle. destruct (Set_has s k) eqn:Hk.
    - apply Set_has_In in Hk. rewrite Set_delete_In. tauto.
    - apply Set_has_not_In in Hk. rewrite Set_add_In.
      destruct (String.eqb_spec k' k) as [->|Hne]; tauto. }
  split; [|split; [|split]].
  - unfold handleColToggle. destruct (Set_has prev k).
    + apply Set_delete_NoDup, Hnd.
    + apply Set_add_NoDup, Hnd.
  - rewrite Hmem. tauto.
  - intros k' Hne. rewrite Hmem. tauto.
  - intros k'. rewrite !Hmem.
    destruct (String.eqb_spec k' k) as [->|Hne]; [|tauto].
    destruct (in_dec String.string_dec k prev); tauto.
Qed.

(** X19: with distinct declared keys and a visible set that lists keys of
    declared columns, each once, "all selected" holds exactly when every
    declared column is visible; the "All" box then hides every column, and
    otherwise shows them all, in declaration order. *)
Theorem handleSelectAll_spec (columns : list TableColumn)
    (visibleCols : list string) :
  List.NoDup (map key columns) -> List.NoDup visibleCols ->
  List.incl visibleCols (map key columns) ->
  (allSelected columns visibleCols = true <->
   forall col, In col columns -> In (key col) visibleCols) /\
  (allSelected columns visibleCols = true ->
   handleSelectAll columns visibleCols = []) /\
  (allSelected columns visibleCols = false ->
   handleSelectAll columns visibleCols = map key columns).
Proof.
  intros Hkeys Hnd Hincl.
  split; [|split].
  - unfold allSelected. rewrite Nat.eqb_eq. split.
    + intros Hlen col Hcol.
      apply (NoDup_incl_full visibleCols (map key columns)); auto.
      * rewrite length_map. exact Hlen.
      * apply in_map. exact Hcol.
    + intros Hall. rewrite <- (length_map key columns).
      apply Nat.le_antisymm.
      * apply List.NoDup_incl_length; assumption.
      * apply List.NoDup_incl_length; [exact Hkeys|].
        intros k Hk. apply in_map_iff in Hk. destruct Hk as (col & <- & Hcol).
        apply Hall. exact Hcol.
  - intros Hall. unfold handleSelectAll. rewrite Hall. reflexivity.
  - intros Hall. unfold handleSelectAll. rewrite Hall.
    apply Set_from_NoDup_id. exact Hkeys.
Qed.

(** X20: when two declared columns share a key, "all selected" never
    holds for a visible set that lists declared keys once each, so the
    "All" box can only show all columns, never hide them. *)
Theorem handleSelectAll_duplicate_keys (columns : list TableColumn)
    (visibleCols : list string) :
  ~ List.NoDup (map key columns) -> List.NoDup visibleCols ->
  List.incl visibleCols (map key columns) ->
  allSelected columns visibleCols = false /\
  handleSelectAll columns visibleCols = Set_from (map key columns).
Proof.
  intros Hdup Hnd Hincl.
  assert (Hall : allSelected columns visibleCols = false).
  { unfold allSelected. apply Nat.eqb_neq. intros Hlen. apply Hdup.
    rewrite <- (length_map key columns) in Hlen.
    eapply List.NoDup_incl_NoDup; [exact Hnd | lia | exact Hincl]. }
  split; [exact Hall|]. unfold handleSelectAll. rewrite Hall. reflexivity.
Qed.

(** X21: the displayed columns are the visible declared columns in
    declaration order, whatever the order in which keys were toggled: two
    visible sets with the same members display the same columns and give
    the same search result. *)
Theorem displayedColumns_declaration_order `{Host}
    (columns : list TableColumn) (visibleCols visibleCols' : list string)
    (data : list Row) (search : string) (filters : FilterState) :
  (forall k, In k visibleCols <-> In k visibleCols') ->
  sublist (displayedColumns columns visibleCols) columns /\
  displayedColumns columns visibleCols = displayedColumns columns visibleCols' /\
  filteredData data search filters visibleCols columns
  = filteredData data search filters visibleCols' columns.
Proof.
  intros Hsame. split; [apply filter_sublist|]. split.
  - unfold displayedColumns. apply List.filter_ext. intros col.
    apply eq_true_iff_eq. rewrite !Set_has_In. apply Hsame.
  - unfold filteredData. f_equal. unfold globalSearch.
    destruct (negb (String.eqb (trim search) "")); [|reflexivity].
    apply List.filter_ext. intros row. apply eq_true_iff_eq.
    rewrite !existsb_exists.
    split; intros (k & Hk & Hinc); exists k; (split; [apply Hsame|]); assumption.
Qed.

(** ** The order of the sorted rows *)

Section SortedOrder.
Context `{Host}.

(** X22: on a column whose fields are numbers, [null] or absent, the
    sorted rows are in numeric order: of two rows with numbers, the one
    placed first has the smaller or equal number under [asc] and the
    greater or equal number under [desc]. *)
Theorem sortedData_numeric_order (k : string) (d : Direction)
    (rows : list Row) (p q : nat) (a b : Row) (x y : Z) :
  (forall row, In row rows ->
     isNullish (get row k) = true \/ exists z, get row k = VNumber (Num z)) ->
  let sorted := sortedData (Some {| sort_key := k; direction := d |}) rows in
  (p < q)%nat -> sorted !! p = Some a -> sorted !! q = Some b ->
  get a k = VNumber (Num x) -> get b k = VNumber (Num y) ->
  match d with
  | asc => x <= y
  | desc => y <= x
  end.
Proof.
  intros Hdom sorted Hlt Hp Hq Ha Hb.
  assert (Hle : lessThan (compareRows {| sort_key := k; direction := d |}) b a
                = false).
  { apply (Array_sort_ordered _ rows).
    - apply compareRows_orders_numbers. exact Hdom.
    - apply before_lookup. exists p, q. auto. }
  rewrite (lessThan_numbers k d b a y x Hb Ha) in Hle.
  destruct d; apply Z.ltb_ge in Hle; lia.
Qed.

Lemma headerClick_asc (k : string) :
  headerClick k (Some {| sort_key := k; direction := asc |})
  = Some {| sort_key := k; direction := desc |}.
Proof.
  unfold headerClick. cbn [sort_key direction].
  rewrite String.eqb_refl. reflexivity.
Qed.

Lemma headerClick_desc (k : string) :
  headerClick k (Some {| sort_key := k; direction := desc |}) = None.
Proof.
  unfold headerClick. cbn [sort_key direction].
  rewrite String.eqb_refl. reflexivity.
Qed.

(** X23: the header click cycles a column through ascending, descending
    and unsorted: from no sort or a sort on the clicked column, one click
    and two clicks change the state and three clicks come back to it; a
    click on a column other than the sorted one sorts by it ascending. *)
Theorem headerClick_cycle (k : string) (prev : option Sort) :
  (match prev with
   | None => True
   | Some p => sort_key p = k
   end ->
   headerClick k prev <> prev /\
   headerClick k (headerClick k prev) <> prev /\
   headerClick k (headerClick k (headerClick k prev)) = prev) /\
  (forall p, prev = Some p -> sort_key p <> k ->
     headerClick k prev = Some {| sort_key := k; direction := asc |}).
Proof.
  split.
  - assert (Hnone : headerClick k None
                    = Some {| sort_key := k; direction := asc |})
      by reflexivity.
    destruct prev as [[k' [|]]|]; cbn [sort_key].
    + intros ->. rewrite headerClick_asc, headerClick_desc, Hnone.
      repeat split; discriminate.
    + intros ->. rewrite headerClick_desc, Hnone, headerClick_asc.
      repeat split; discriminate.
    + intros _. rewrite Hnone, headerClick_asc, headerClick_desc.
      repeat split; discriminate.
  - intros p -> Hne. simpl.
    destruct (String.eqb_spec (sort_key p) k); [contradiction|reflexivity].
Qed.

End SortedOrder.

(** ** The chooser keeps its visible set well formed *)

(** X24: whatever boxes of the chooser are ticked, in whatever order,
    starting from the initial state, the visible set lists only keys of
    declared columns and lists none twice. *)
Theorem chooser_invariant (columns : list TableColumn)
    (defaultHiddenColumns : list string) (events : list ChooserEvent) :
  (forall col, In (ToggleColumn col) events -> In col columns) ->
  let visibleCols :=
    fold_left (chooserStep columns) events
      (initialVisibleCols columns defaultHiddenColumns) in
  List.NoDup visibleCols /\ List.incl visibleCols (map key columns).
Proof.
  intros Hev. cbv zeta.
  induction events as [|e events IH] using rev_ind.
  - simpl. split; [apply initialVisibleCols_NoDup|].
    intros k Hk. apply (proj1 (initialVisibleCols_In _ _ _)) in Hk. tauto.
  - rewrite fold_left_app. simpl.
    destruct IH as [Hnd Hincl].
    { intros col Hcol. apply Hev. apply in_or_app. left. exact Hcol. }
    set (vis := fold_left (chooserStep columns) events _) in *.
    destruct e as [col|]; simpl.
    + assert (Hcol : In col columns).
      { apply Hev. apply in_or_app. right. left. reflexivity. }
      unfold handleColToggle. destruct (Set_has vis (key col)).
      * split; [apply Set_delete_NoDup, Hnd|].
        intros k Hk. apply (proj1 (Set_delete_In _ _ _)) in Hk.
        apply Hincl. tauto.
      * split; [apply Set_add_NoDup, Hnd|].
        intros k Hk. apply (proj1 (Set_add_In _ _ _)) in Hk.
        destruct Hk as [->|Hk].
        -- apply in_map. exact Hcol.
        -- apply Hincl. exact Hk.
    + unfold handleSelectAll. destruct (allSelected columns vis).
      * split; [constructor | intros k []].
      * split; [apply Set_from_NoDup|].
        intros k Hk. exact (proj1 (Set_from_In _ _) Hk).
Qed.

(** ** Pages *)

Section Pages.
Context {A : Type}.

Lemma pagedData_length (R : list A) (page pageSize : Z) :
  0 < pageSize -> 1 <= page ->
  Z.of_nat (length (pagedData true R page pageSize))
  = Z.min pageSize (Z.max 0 (Z.of_nat (length R) - (page - 1) * pageSize)).
Proof.
  intros Hps Hp. rewrite pagedData_page by assumption.
  rewrite length_firstn, length_skipn. nia.
Qed.

(** X25: every page from 1 to [pageCount] of a non-empty list shows at
    least one row and at most [pageSize]; every page before the last one
    shows exactly [pageSize]. *)
Theorem pagedData_page_size (R : list A) (page pageSize : Z) :
  0 < pageSize -> 1 <= page <= pageCount R pageSize ->
  (R <> [] ->
   1 <= Z.of_nat (length (pagedData true R page pageSize)) <= pageSize) /\
  (page < pageCount R pageSize ->
   Z.of_nat (length (pagedData true R page pageSize)) = pageSize).
Proof.
  intros Hps [Hp Hcount].
  pose proof (ceilDiv_spec (Z.of_nat (length R)) pageSize Hps) as [Hlow Hhigh].
  rewrite pagedData_length by assumption.
  unfold pageCount in *. split.
  - intros Hne.
    assert (0 < Z.of_nat (length R)) by (destruct R; [congruence | simpl; lia]).
    nia.
  - intros Hlt. nia.
Qed.

(** X26: the Previous and Next buttons never leave the range of pages:
    from a page between 1 and [pageCount], any sequence of presses ends on
    a page between 1 and [pageCount], which, when there are rows, shows at
    least one. *)
Theorem pressPageButton_in_range (R : list A) (page pageSize : Z)
    (presses : list PageButton) :
  0 < pageSize -> 1 <= page <= pageCount R pageSize ->
  let page' := fold_left (pressPageButton (pageCount R pageSize)) presses page in
  1 <= page' <= pageCount R pageSize /\
  (R <> [] -> pagedData true R page' pageSize <> []).
Proof.
  intros Hps Hrange. cbv zeta.
  assert (Hin : 1 <= fold_left (pressPageButton (pageCount R pageSize))
                       presses page <= pageCount R pageSize).
  { revert page Hrange. induction presses as [|b presses IH]; intros page Hr;
      simpl; [exact Hr|].
    apply IH. destruct b; unfold pressPageButton, previousPage, nextPage; lia. }
  split; [exact Hin|]. intros Hne Hempty.
  pose proof (ceilDiv_spec (Z.of_nat (length R)) pageSize Hps) as [Hlow _].
  pose proof (pagedData_length R _ pageSize Hps (proj1 Hin)) as Hlen.
  rewrite Hempty in Hlen. simpl in Hlen.
  assert (0 < Z.of_nat (length R)) by (destruct R; [congruence | simpl; lia]).
  unfold pageCount in *. nia.
Qed.

End Pages.

(** ** Sticky offsets never fail on a displayed column *)

Lemma getStickyLeft_from_None (cols : list TableColumn) (n i : nat)
    (left : number) :
  getStickyLeft_from cols i n left = None <-> (length cols < i + n)%nat /\ (0 < n)%nat.
Proof.
  revert i left. induction n as [|n IH]; intros i left; simpl.
  - split; [discriminate | lia].
  - destruct (cols !! i) as [col|] eqn:Hcol.
    + apply lookup_lt_Some in Hcol. rewrite IH. split; [lia|].
      intros [Hlen _]. split; [lia|].
      destruct n; [lia | lia].
    + apply lookup_ge_None in Hcol. split; [lia | reflexivity].
Qed.

(** X27: [getStickyLeft] fails exactly when the index runs past the end of
    the column list; for every position of a displayed column it returns
    an offset, which is 0 for the first one. *)
Theorem getStickyLeft_defined (cols : list TableColumn) (idx : nat) :
  (getStickyLeft cols idx = None <-> (length cols < idx)%nat) /\
  ((idx < length cols)%nat -> is_Some (getStickyLeft cols idx)) /\
  getStickyLeft cols 0 = Some (Num 0).
Proof.
  split; [|split; [|reflexivity]].
  - unfold getStickyLeft. rewrite getStickyLeft_from_None. lia.
  - intros Hlt. rewrite getStickyLeft_sum by lia. eexists. reflexivity.
Qed.

(** ** The selection of the multi-select dropdown *)

Module Selection.
Import MultiSelectDropdown.

Lemma filter_out_absent (o : string) (l : list string) :
  ~ In o l -> List.filter (fun v => negb (String.eqb v o)) l = l.
Proof.
  induction l as [|x l IH]; simpl; [reflexivity|]. intros Hn.
  destruct (String.eqb_spec x o) as [->|_]; simpl; [tauto|].
  rewrite IH by tauto. reflexivity.
Qed.

Lemma handleSelect_In (o o' : string) (st : Popover) :
  In o' (selected (handleSelect o st)) <->
  (o' = o /\ ~ In o (selected st)) \/ (o' <> o /\ In o' (selected st)).
Proof.
  unfold handleSelect. destruct (Array_includes (selected st) o) eqn:Ho; simpl.
  - apply Array_includes_In in Ho. rewrite List.filter_In.
    destruct (String.eqb_spec o' o); simpl; intuition congruence.
  - assert (Hn : ~ In o (selected st)).
    { intros Hin. apply Array_includes_In in Hin. congruence. }
    rewrite in_app_iff. simpl.
    destruct (String.eqb_spec o' o) as [->|Hne]; intuition congruence.
Qed.

(** X28: selecting an option toggles it and nothing else: afterwards the
    option is selected exactly when it was not, every other option is as
    before, no option is listed twice, the selection stays within the
    options when the option is one of them, and selecting an unselected
    option twice gives back the very same selection. *)
Theorem handleSelect_toggles (options : list string) (o : string)
    (st : Popover) :
  List.NoDup (selected st) ->
  List.NoDup (selected (handleSelect o st)) /\
  (In o (selected (handleSelect o st)) <-> ~ In o (selected st)) /\
  (forall o', o' <> o ->
     (In o' (selected (handleSelect o st)) <-> In o' (selected st))) /\
  (In o options -> List.incl (selected st) options ->
   List.incl (selected (handleSelect o st)) options) /\
  (~ In o (selected st) ->
   selected (handleSelect o (handleSelect o st)) = selected st).
Proof.
  intros Hnd. split; [|split; [|split; [|split]]].
  - unfold handleSelect. destruct (Array_includes (selected st) o) eqn:Ho; simpl.
    + apply List.NoDup_filter, Hnd.
    + fold (Set_has (selected st) o) in Ho.
      pose proof (Set_add_NoDup o (selected st) Hnd) as Hadd.
      unfold Set_add in Hadd. rewrite Ho in Hadd. exact Hadd.
  - rewrite handleSelect_In. tauto.
  - intros o' Hne. rewrite handleSelect_In. tauto.
  - intros Ho Hincl o' Hin. apply handleSelect_In in Hin.
    destruct Hin as [[-> _]|[_ Hin]]; [exact Ho | apply Hincl, Hin].
  - intros Hn. destruct st as [op sel]. simpl in *.
    assert (Ho : Array_includes sel o = false).
    { destruct (Array_includes sel o) eqn:E; [|reflexivity].
      apply Array_includes_In in E. contradiction. }
    unfold handleSelect at 2. simpl. rewrite Ho.
    unfold handleSelect, onChange. simpl.
    replace (Array_includes (sel ++ [o]) o) with true.
    + simpl. rewrite List.filter_app. simpl. rewrite String.eqb_refl. simpl.
      rewrite app_nil_r. apply filter_out_absent. exact Hn.
    + symmetry. apply Array_includes_In, in_or_app. right. left. reflexivity.
Qed.

(** X29: with options listed once each and a selection that lists some of
    them once each, "all selected" holds exactly when there is at least
    one option and every option is selected; "Select All" then clears the
    selection and otherwise selects every option, so that a second press
    clears it. *)
Theorem handleSelectAll_toggles (options : list string) (st : Popover) :
  List.NoDup options -> List.NoDup (selected st) ->
  List.incl (selected st) options ->
  (allSelected options st = true <->
   options <> [] /\ forall o, In o options -> In o (selected st)) /\
  (allSelected options st = true ->
   selected (handleSelectAll options st) = []) /\
  (allSelected options st = false ->
   selected (handleSelectAll options st) = options /\
   (options <> [] ->
    selected (handleSelectAll options (handleSelectAll options st)) = [])).
Proof.
  intros Hopts Hnd Hincl.
  assert (Hall : forall s, allSelected options s = true <->
            length (selected s) = length options /\ options <> []).
  { intros s. unfold allSelected.
    rewrite andb_true_iff, Nat.eqb_eq, Nat.ltb_lt.
    destruct options; simpl; intuition (try lia; try congruence). }
  split; [|split].
  - rewrite Hall. split.
    + intros [Hlen Hne]. split; [exact Hne|].
      apply (NoDup_incl_full (selected st) options); assumption.
    + intros [Hne Hevery]. split; [|exact Hne].
      apply Nat.le_antisymm; apply List.NoDup_incl_length; assumption.
  - intros Ht. unfold handleSelectAll. rewrite Ht. reflexivity.
  - intros Hf.
    assert (Hstep : handleSelectAll options st = onChange options st).
    { unfold handleSelectAll. rewrite Hf. reflexivity. }
    rewrite Hstep. split; [reflexivity|]. intros Hne.
    unfold handleSelectAll.
    replace (allSelected options (onChange options st)) with true;
      [reflexivity|].
    symmetry. apply Hall. simpl. auto.
Qed.

Lemma handleSelect_toggles_witness :
  let st := {| open := true; selected := ["Admin"] |} in
  List.NoDup (selected (handleSelect "User" st)) /\
  (In "User" (selected (handleSelect "User" st)) <-> ~ In "User" (selected st))
  /\
  List.incl (selected (handleSelect "User" st)) ["Admin"; "User"] /\
  selected (handleSelect "User" (handleSelect "User" st)) = selected st.
Proof.
  intros st.
  destruct (handleSelect_toggles ["Admin"; "User"] "User" st)
    as (Hnd & Hflip & _ & Hincl & Htwice).
  { repeat constructor; simpl; tauto. }
  split; [exact Hnd|]. split; [exact Hflip|]. split.
  - apply Hincl; [right; left; reflexivity|].
    intros o [<-|[]]. left. reflexivity.
  - apply Htwice. intros [Ho|[]]. discriminate.
Defined.

Lemma handleSelectAll_toggles_witness :
  let options := ["Admin"; "User"] in
  let st := {| open := true; selected := ["Admin"] |} in
  selected (handleSelectAll options st) = options /\
  selected (handleSelectAll options (handleSelectAll options st)) = [].
Proof.
  intros options st.
  destruct (handleSelectAll_toggles options st) as (_ & _ & Hpartial).
  - repeat constructor; simpl; intuition discriminate.
  - repeat constructor; simpl; tauto.
  - intros o [<-|[]]. left. reflexivity.
  - destruct Hpartial as [Hall Hclear]; [reflexivity|].
    split; [exact Hall|]. apply Hclear. discriminate.
Defined.

End Selection.

(** ** The properties at work *)


Lemma columnFilter_date_clause_witness :
  let col := column "joined" (Some TDate) None None in
  let alice := mkRow [("name", VString "Alice"); ("age", VNumber (Num 35));
                      ("joined", VString "2020-06-01")] in
  let range : FilterState :=
    {[ "joined" := entry "range" (FVString "2020-06-01") (Some "2021-01-01") ]} in
  let half : FilterState :=
    {[ "joined" := entry "range" (FVString "2020-06-01") None ]} in
  (In alice (columnFilter (H := exampleHost) range people col) <->
   In alice people /\
   exists d lo hi,
     truthy (get alice "joined") = true /\
     NewDate (H := exampleHost) (get alice "joined") = Num d /\
     NewDate (H := exampleHost) (VString "2020-06-01") = Num lo /\
     NewDate (H := exampleHost) (VString "2021-01-01") = Num hi /\
     lo <= d <= hi) /\
  columnFilter (H := exampleHost) half people col = people.
Proof.
  intros col alice range half. split.
  - apply (columnFilter_date_clause (H := exampleHost) range people col
             (entry "range" (FVString "2020-06-01") (Some "2021-01-01")) alice);
      solve [reflexivity | discriminate].
  - apply (columnFilter_date_clause (H := exampleHost) half people col
             (entry "range" (FVString "2020-06-01") None) alice);
      [reflexivity | reflexivity | right; split; reflexivity].
Defined.

Lemma filteredData_columns_commute_witness :
  let filters : FilterState :=
    {[ "age" := entry ">" (FVString "36") None;
       "name" := entry "contains" (FVString "o") None ]} in
  filteredData (H := exampleHost) people "" filters ["name"] sheet
  = filteredData (H := exampleHost) people "" filters ["name"]
      [column "age" (Some TInteger) None None;
       column "name" (Some TString) None None;
       column "joined" (Some TDate) None None].
Proof.
  intros filters.
  apply (filteredData_columns_commute (H := exampleHost)).
  apply perm_swap.
Defined.

Lemma filteredData_identity_witness :
  filteredData (H := exampleHost) people "  "
    {[ "name" := entry "contains" (FVString "") None ]} ["name"] sheet
  = people.
Proof.
  apply (filteredData_identity (H := exampleHost)); [reflexivity|].
  intros col [<-|[<-|[<-|[]]]]; reflexivity.
Defined.

Lemma filteredData_search_no_visible_witness :
  filteredData (H := exampleHost) people "ali" ∅ [] sheet = [].
Proof.
  apply (filteredData_search_no_visible (H := exampleHost)).
  vm_compute. discriminate.
Defined.

Lemma columnFilter_integer_clause_witness :
  let col := column "age" (Some TInteger) None None in
  let filters : FilterState := {[ "age" := entry ">" (FVString "36") None ]} in
  let bob := mkRow [("name", VString "Bob"); ("age", VNumber (Num 40));
                    ("joined", VString "2018-09-15")] in
  In bob (columnFilter (H := exampleHost) filters people col) <->
  In bob people /\
  exists x y, Number_ (H := exampleHost) (get bob "age") = Num x /\
    fv_Number (H := exampleHost) (FVString "36") = Num y /\ y < x.
Proof.
  intros col filters bob.
  destruct (columnFilter_integer_clause (H := exampleHost) filters people col
              (entry ">" (FVString "36") None) bob)
    as (_ & _ & Hgt & _); [reflexivity | reflexivity | reflexivity |].
  apply Hgt. reflexivity.
Defined.

Lemma columnFilter_unparseable_witness :
  columnFilter (H := exampleHost)
    {[ "age" := entry "=" (FVString "abc") None ]} people
    (column "age" (Some TInteger) None None) = [] /\
  columnFilter (H := exampleHost)
    {[ "joined" := entry "before" (FVString "soon") None ]} people
    (column "joined" (Some TDate) None None) = [].
Proof.
  split.
  - destruct (columnFilter_unparseable (H := exampleHost)
                {[ "age" := entry "=" (FVString "abc") None ]} people
                (column "age" (Some TInteger) None None)
                (entry "=" (FVString "abc") None)) as [Hint _];
      [reflexivity|].
    apply Hint; [reflexivity | reflexivity | left; reflexivity |].
    vm_compute. reflexivity.
  - destruct (columnFilter_unparseable (H := exampleHost)
                {[ "joined" := entry "before" (FVString "soon") None ]} people
                (column "joined" (Some TDate) None None)
                (entry "before" (FVString "soon") None)) as [_ Hdate];
      [reflexivity|].
    destruct (Hdate eq_refl "soon") as [Hone _];
      [reflexivity | discriminate |].
    apply Hone; [left; reflexivity|]. vm_compute. reflexivity.
Defined.

Lemma columnFilter_text_clause_witness :
  let col := column "name" (Some TString) None None in
  let filters : FilterState :=
    {[ "name" := entry "contains" (FVString "LIC") None ]} in
  let alice := mkRow [("name", VString "Alice"); ("age", VNumber (Num 35));
                      ("joined", VString "2020-06-01")] in
  In alice (columnFilter (H := exampleHost) filters people col) <->
  In alice people /\
  exists pre post,
    toLowerCase (String_ (get alice "name"))
    = String.append pre (String.append (toLowerCase "LIC") post).
Proof.
  intros col filters alice.
  apply (columnFilter_text_clause (H := exampleHost) filters people col
           (entry "contains" (FVString "LIC") None) "LIC" alice);
    solve [reflexivity | discriminate].
Defined.

Lemma columnFilter_dropdown_clause_witness :
  let col := column "name" None (Some FDropdown) None in
  let alice := mkRow [("name", VString "Alice"); ("age", VNumber (Num 35));
                      ("joined", VString "2020-06-01")] in
  (In alice (columnFilter (H := exampleHost)
               {[ "name" := entry "in" (FVArray ["Alice"; "Eve"]) None ]}
               people col) <->
   In alice people /\ In (String_ (get alice "name")) ["Alice"; "Eve"]) /\
  (In alice (columnFilter (H := exampleHost)
               {[ "name" := entry "contains" (FVString "Ali") None ]}
               people col) <->
   In alice people /\ String_ (get alice "name") = "Ali").
Proof.
  intros col alice. split.
  - destruct (columnFilter_dropdown_clause (H := exampleHost)
                {[ "name" := entry "in" (FVArray ["Alice"; "Eve"]) None ]}
                people col (entry "in" (FVArray ["Alice"; "Eve"]) None) alice)
      as [Harr _]; [reflexivity | discriminate | discriminate | reflexivity |].
    apply Harr; [reflexivity | discriminate].
  - destruct (columnFilter_dropdown_clause (H := exampleHost)
                {[ "name" := entry "contains" (FVString "Ali") None ]}
                people col (entry "contains" (FVString "Ali") None) alice)
      as [_ Hstr]; [reflexivity | discriminate | discriminate | reflexivity |].
    apply Hstr; [reflexivity | discriminate].
Defined.

Lemma uniqueValues_spec_witness :
  In "undefined" (uniqueValues ranked "age") /\
  String.compare "35" "40" = Lt.
Proof.
  destruct (uniqueValues_spec ranked "age") as (_ & _ & Hord & Hundef).
  split.
  - apply Hundef. exists (mkRow [("name", VString "Dan")]).
    split; [right; right; right; left; reflexivity | reflexivity].
  - apply (Hord 0%nat 1%nat); [lia | reflexivity | reflexivity].
Defined.

Lemma dropdownOptions_of_column_witness :
  let role := column "name" None (Some FDropdown) None in
  dropdownOptions role (columnDropdownOptions [role] people)
  = uniqueValues people "name".
Proof.
  intros role.
  apply (dropdownOptions_of_column [role] people role).
  left. reflexivity.
Defined.

Lemma filterControl_dropdown_without_options_witness :
  let col := column "name" None (Some FDropdown) None in
  let alice := mkRow [("name", VString "Alice"); ("age", VNumber (Num 35));
                      ("joined", VString "2020-06-01")] in
  filterControl col ∅ ∅ = TextControl /\
  (In alice (columnFilter (H := exampleHost) (onTextChange "name" "Ali" ∅)
               people col) <->
   In alice people /\ String_ (get alice "name") = "Ali").
Proof.
  intros col alice.
  destruct (filterControl_dropdown_without_options (H := exampleHost)
              col ∅ ∅ people "Ali" alice) as [Hctl Hexact];
    [discriminate | reflexivity | reflexivity |].
  split; [exact Hctl|]. apply Hexact; discriminate.
Defined.

Lemma onDropdownChange_round_trip_witness :
  let col := column "name" None (Some FDropdown) None in
  let alice := mkRow [("name", VString "Alice"); ("age", VNumber (Num 35));
                      ("joined", VString "2020-06-01")] in
  let filters := onDropdownChange "name" ["Alice"] ∅ in
  getDropdownFilterValue (from_option value FVUndefined (filters !! "name"))
  = ["Alice"] /\
  (In alice (columnFilter (H := exampleHost) filters people col) <->
   In alice people /\
   (["Alice"] = [] \/ In (String_ (get alice "name")) ["Alice"])).
Proof.
  intros col alice filters.
  destruct (onDropdownChange_round_trip (H := exampleHost) col ["Alice"] ∅
              people alice) as (Hback & _ & Hfilter).
  split; [exact Hback|]. apply Hfilter; [discriminate | discriminate | reflexivity].
Defined.

Lemma onDateOpChange_clears_witness :
  let col := column "joined" (Some TDate) None None in
  let prev : FilterState :=
    {[ "joined" := entry "after" (FVString "2019-01-01") None;
       "name" := entry "contains" (FVString "a") None ]} in
  columnFilter (H := exampleHost) (onDateOpChange "joined" "before" prev)
    people col = people /\
  onDateOpChange "joined" "before" prev !! "name" = prev !! "name".
Proof.
  intros col prev.
  destruct (onDateOpChange_clears (H := exampleHost) col "before" prev people)
    as [Hclear Hother].
  split; [exact Hclear|]. apply Hother. discriminate.
Defined.


Lemma handleColToggle_flips_witness :
  List.NoDup (handleColToggle "age" ["name"; "age"]) /\
  (In "age" (handleColToggle "age" ["name"; "age"]) <->
   ~ In "age" ["name"; "age"]).
Proof.
  destruct (handleColToggle_flips "age" ["name"; "age"]) as (Hnd & Hflip & _).
  - repeat constructor; simpl; intuition discriminate.
  - split; assumption.
Defined.

Lemma handleSelectAll_spec_witness :
  handleSelectAll sheet ["name"; "age"; "joined"] = [] /\
  handleSelectAll sheet ["age"] = ["name"; "age"; "joined"].
Proof.
  split.
  - destruct (handleSelectAll_spec sheet ["name"; "age"; "joined"])
      as (_ & Hall & _).
    + repeat constructor; simpl; intuition discriminate.
    + repeat constructor; simpl; intuition discriminate.
    + intros k Hk. exact Hk.
    + apply Hall. reflexivity.
  - destruct (handleSelectAll_spec sheet ["age"]) as (_ & _ & Hsome).
    + repeat constructor; simpl; intuition discriminate.
    + repeat constructor; simpl; tauto.
    + intros k [<-|[]]. right. left. reflexivity.
    + apply Hsome. reflexivity.
Defined.

Lemma handleSelectAll_duplicate_keys_witness :
  let columns := [column "id" None None None; column "id" None None None] in
  allSelected columns ["id"] = false /\
  handleSelectAll columns ["id"] = Set_from (map key columns).
Proof.
  intros columns.
  apply (handleSelectAll_duplicate_keys columns ["id"]).
  - intros Hnd. inversion Hnd as [|x l Hx _]. apply Hx. left. reflexivity.
  - repeat constructor; simpl; tauto.
  - intros k [<-|[]]. left. reflexivity.
Defined.

Lemma displayedColumns_declaration_order_witness :
  displayedColumns sheet ["joined"; "name"]
  = displayedColumns sheet ["name"; "joined"] /\
  filteredData (H := exampleHost) people "bob" ∅ ["joined"; "name"] sheet
  = filteredData (H := exampleHost) people "bob" ∅ ["name"; "joined"] sheet.
Proof.
  destruct (displayedColumns_declaration_order (H := exampleHost) sheet
              ["joined"; "name"] ["name"; "joined"] people "bob" ∅)
    as (_ & Hcols & Hrows).
  - intros k. simpl. tauto.
  - split; assumption.
Defined.

Lemma sortedData_numeric_order_witness :
  let sorted := sortedData (H := exampleHost)
                  (Some {| sort_key := "age"; direction := desc |}) ranked in
  sorted !! 1%nat
  = Some (mkRow [("name", VString "Carol"); ("age", VNumber (Num 40))]) /\
  sorted !! 2%nat
  = Some (mkRow [("name", VString "Alice"); ("age", VNumber (Num 35))]) /\
  35 <= 40.
Proof.
  intros sorted.
  split; [vm_compute; reflexivity|]. split; [vm_compute; reflexivity|].
  apply (sortedData_numeric_order (H := exampleHost) "age" desc ranked
           1%nat 2%nat
           (mkRow [("name", VString "Carol"); ("age", VNumber (Num 40))])
           (mkRow [("name", VString "Alice"); ("age", VNumber (Num 35))])
           40 35);
    [ | lia | vm_compute; reflexivity .. ].
  intros row [<-|[<-|[<-|[<-|[<-|[]]]]]];
    first [left; reflexivity | right; eexists; reflexivity].
Defined.

Lemma headerClick_cycle_witness :
  headerClick "age" (headerClick "age" (headerClick "age" None)) = None /\
  headerClick "age" (Some {| sort_key := "name"; direction := desc |})
  = Some {| sort_key := "age"; direction := asc |}.
Proof.
  split.
  - destruct (headerClick_cycle "age" None) as [Hcycle _].
    apply Hcycle. exact I.
  - destruct (headerClick_cycle "age"
                (Some {| sort_key := "name"; direction := desc |}))
      as [_ Hother].
    apply (Hother {| sort_key := "name"; direction := desc |});
      [reflexivity | discriminate].
Defined.

Lemma chooser_invariant_witness :
  let visibleCols :=
    fold_left (chooserStep sheet)
      [ToggleColumn (column "age" (Some TInteger) None None); ToggleAll]
      (initialVisibleCols sheet ["joined"]) in
  List.NoDup visibleCols /\ List.incl visibleCols (map key sheet).
Proof.
  apply (chooser_invariant sheet ["joined"]).
  intros col [Heq|[Heq|[]]]; [|discriminate].
  injection Heq as <-. right. left. reflexivity.
Defined.

Lemma pagedData_page_size_witness :
  let R := [1; 2; 3; 4; 5; 6; 7]%nat in
  1 <= Z.of_nat (length (pagedData true R 3 3)) <= 3 /\
  Z.of_nat (length (pagedData true R 2 3)) = 3.
Proof.
  intros R. split.
  - destruct (pagedData_page_size R 3 3) as [Hlast _];
      [lia | vm_compute; split; discriminate |].
    apply Hlast. discriminate.
  - destruct (pagedData_page_size R 2 3) as [_ Hfull];
      [lia | vm_compute; split; discriminate |].
    apply Hfull. reflexivity.
Defined.

Lemma pressPageButton_in_range_witness :
  let R := [1; 2; 3; 4; 5; 6; 7]%nat in
  let page' := fold_left (pressPageButton (pageCount R 3))
                 [Next; Next; Next; Previous] 1 in
  1 <= page' <= pageCount R 3 /\ pagedData true R page' 3 <> [].
Proof.
  intros R page'.
  destruct (pressPageButton_in_range R 1 3 [Next; Next; Next; Previous])
    as [Hrange Hrows]; [lia | vm_compute; split; discriminate |].
  split; [exact Hrange|]. apply Hrows. discriminate.
Defined.

Lemma getStickyLeft_defined_witness :
  is_Some (getStickyLeft (displayedColumns sheet ["name"; "joined"]) 1) /\
  getStickyLeft (displayedColumns sheet ["name"; "joined"]) 3 = None.
Proof.
  destruct (getStickyLeft_defined (displayedColumns sheet ["name"; "joined"]) 1)
    as (_ & Hdef & _).
  destruct (getStickyLeft_defined (displayedColumns sheet ["name"; "joined"]) 3)
    as (Hnone & _ & _).
  split; [apply Hdef | apply Hnone]; vm_compute; lia.
Defined.
